(** * scripts/plot.py: memory and swap charts from cgroup CSV logs

    A shallow embedding of [scripts/plot.py] and the properties its
    specification states about it.

    Modelling choices.
    - Numbers.  Timestamps and metric values are canonical rationals [Qc]:
      equality of keys is exact numeric equality and arithmetic is exact
      (the script computes with 64-bit floats; rounding is not modelled).
    - A parsed CSV file (a polars [DataFrame]) is a [frame]: a finite map
      from column names to numeric columns, a column being a list of
      numbers, or a table without rows whose columns have the String dtype,
      as polars types the columns of a file with a header line and no row.
      The division of such a column by a number raises [TypeError].  A
      table with rows has numeric columns only: text or null cells in a
      row are outside the model.
    - [mem_dict] and [swap_dict] ([collections.defaultdict(list)]) are finite
      maps from timestamps to the list of values appended so far.
    - Exceptions are the constructors of [error]; a computation that may
      raise returns a [result].
    - The file system is read once: a directory listing gives every entry's
      name and what [pl.read_csv] makes of it.  The directory name is taken
      literally: it holds none of the characters that [glob] expands.  The
      images written by [plt.savefig], which is taken to succeed, are
      collected, in order, with the data they plot. *)

From Stdlib Require Import QArith Qcanon Ascii String.
From stdpp Require Import gmap strings list fin_maps sorting.

Local Open Scope string_scope.
Local Open Scope list_scope.
Local Open Scope Qc_scope.

(** ** Exceptions *)

Inductive error : Type :=
  | ReadError (path : string)          (* pl.read_csv cannot parse the file *)
  | ColumnNotFoundError (col : string) (* df[col] on an absent column *)
  | TypeError                          (* a String column divided by a number *)
  | ValueError                         (* not enough values to unpack *)
  | ZeroDivisionError.

Inductive result (A : Type) : Type :=
  | Ok (a : A)
  | Raise (e : error).
Arguments Ok {A} a.
Arguments Raise {A} e.

Definition bind {A B} (r : result A) (k : A → result B) : result B :=
  match r with
  | Ok a => k a
  | Raise e => Raise e
  end.

Notation "x <- r ;; k" := (bind r (λ x, k))
  (at level 100, r at next level, right associativity).

(** A list comprehension whose body may raise: left to right, stopping at
    the first exception. *)
Fixpoint comprehension {A B} (f : A → result B) (l : list A) : result (list B) :=
  match l with
  | [] => Ok []
  | a :: l' => b <- f a ;; bs <- comprehension f l' ;; Ok (b :: bs)
  end.

(** ** Paths ([os.path] on POSIX) *)

Definition sep : ascii := "/"%char.
Definition extsep : ascii := "."%char.

(** [s.rfind(c)]: the highest index of [c] in [s], or [-1]. *)
Fixpoint rfind (c : ascii) (s : string) : Z :=
  match s with
  | EmptyString => (-1)%Z
  | String a s' =>
      let i := rfind c s' in
      if (0 <=? i)%Z then (1 + i)%Z
      else if Ascii.eqb a c then 0%Z else (-1)%Z
  end.

(** [s[:i]] and [s[i:]] for [0 <= i]. *)
Definition take_str (i : Z) (s : string) : string :=
  substring 0 (Z.to_nat i) s.
Definition drop_str (i : Z) (s : string) : string :=
  substring (Z.to_nat i) (String.length s - Z.to_nat i) s.

Definition startswith_sep (s : string) : bool :=
  match s with
  | String a _ => Ascii.eqb a sep
  | EmptyString => false
  end.

Fixpoint endswith_sep (s : string) : bool :=
  match s with
  | EmptyString => false
  | String a EmptyString => Ascii.eqb a sep
  | String _ s' => endswith_sep s'
  end.

(** [os.path.join(a, b)] *)
Definition join (a b : string) : string :=
  if startswith_sep b then b
  else if String.eqb a "" || endswith_sep a then a +:+ b
  else a +:+ "/" +:+ b.

(** [os.path.basename(p)] *)
Definition basename (p : string) : string :=
  drop_str (rfind sep p + 1) p.

(** The loop of [genericpath._splitext] that skips the leading dots of the
    file name: [n] positions remain between [filenameIndex] and [dotIndex];
    [true] when a character other than a dot is met. *)
Fixpoint skip_leading_dots (p : string) (filenameIndex n : nat) : bool :=
  match n with
  | O => false
  | S n' =>
      match String.get filenameIndex p with
      | Some a =>
          if Ascii.eqb a extsep
          then skip_leading_dots p (S filenameIndex) n'
          else true
      | None => true
      end
  end.

(** [os.path.splitext(p)] *)
Definition splitext (p : string) : string * string :=
  let sepIndex := rfind sep p in
  let dotIndex := rfind extsep p in
  if (sepIndex <? dotIndex)%Z
     && skip_leading_dots p (Z.to_nat (sepIndex + 1))
          (Z.to_nat (dotIndex - (sepIndex + 1)))
  then (take_str dotIndex p, drop_str dotIndex p)
  else (p, "").

(** [s.endswith(suffix)] *)
Definition endswith (suffix s : string) : bool :=
  (String.length suffix <=? String.length s)%nat
  && String.eqb
       (substring (String.length s - String.length suffix)
          (String.length suffix) s)
       suffix.

(** ** Data frames *)

Abbreviation Series := (list Qc).

(** The numeric columns of a table, by name. *)
Abbreviation DataFrame := (gmap string (list Qc)).

(** What [pl.read_csv] returns: a table of numeric columns or, for a file
    in which polars found no value to infer a numeric type from (a header
    line and no row), a table without rows whose columns have the String
    dtype, given by their names. *)
Inductive frame : Type :=
  | Numeric (df : DataFrame)
  | Strings (columns : list string).

(** [df[col]] *)
Definition getitem (df : DataFrame) (col : string) : result Series :=
  match df !! col with
  | Some s => Ok s
  | None => Raise (ColumnNotFoundError col)
  end.

(** The integer [z] as a number. *)
Definition num (z : Z) : Qc := Q2Qc (inject_Z z).

(** [series / (1024 * 1024)] on a numeric column *)
Definition MB : Qc := num (1024 * 1024).
Definition to_mb (v : Qc) : Qc := v / MB.
Definition div_mb (s : Series) : Series := to_mb <$> s.

(** [df[col].to_numpy()] *)
Definition to_numpy (fr : frame) (col : string) : result Series :=
  match fr with
  | Numeric df => getitem df col
  | Strings columns =>
      if decide (col ∈ columns) then Ok []
      else Raise (ColumnNotFoundError col)
  end.

(** [(df[col] / (1024 * 1024)).to_numpy()]: the column is looked up, then
    divided, and the division of a String column raises. *)
Definition truediv_mb (fr : frame) (col : string) : result Series :=
  match fr with
  | Numeric df => s <- getitem df col ;; Ok (div_mb s)
  | Strings columns =>
      if decide (col ∈ columns) then Raise TypeError
      else Raise (ColumnNotFoundError col)
  end.

(** ** The directory and [glob] *)

(** An entry of the directory: its name and, when polars can parse it, the
    table it makes of it. *)
Record entry : Type := Entry {
  name : string;
  table : option frame
}.

(** A path returned by [glob.glob], with the content found there. *)
Record csv_file : Type := CsvFile {
  path : string;
  content : option frame
}.

(** [fnmatch] of a directory entry's name against [*.csv]; [glob] leaves
    hidden names out. *)
Definition matches_csv (n : string) : bool :=
  negb (String.prefix "." n) && endswith ".csv" n.

(** [glob.glob(os.path.join(csv_dir, "*.csv"))], in the order of the
    directory listing, for a directory name without pattern characters. *)
Definition glob (csv_dir : string) (listing : list entry) : list csv_file :=
  (λ e, CsvFile (join csv_dir (name e)) (table e))
    <$> filter (λ e, matches_csv (name e) = true) listing.

(** [pl.read_csv(csv_file)] *)
Definition read_csv (f : csv_file) : result frame :=
  match content f with
  | Some df => Ok df
  | None => Raise (ReadError (path f))
  end.

(** [sys.argv[1] if len(sys.argv) > 1 else "."] *)
Definition csv_dir_of (argv : list string) : string :=
  if (1 <? length argv)%nat then default "." (argv !! 1%nat) else ".".

(** ** First pass: pooling the samples of every file (lines 12-21) *)

Abbreviation points := (list (Qc * Qc)).

(** The body of the loop for one file: the memory and the swap samples it
    adds to [all_points] and [all_swap_points]. *)
Definition file_points (f : csv_file) : result (points * points) :=
  df <- read_csv f ;;
  timestamps <- to_numpy df "timestamp" ;;
  mem <- truediv_mb df "current_memory_usage" ;;
  swap <- truediv_mb df "current_swap_usage" ;;
  Ok (zip timestamps mem, zip timestamps swap).

(** [for csv_file in csv_files: ... all_points.extend(...)] *)
Fixpoint pool_loop (csv_files : list csv_file)
    (all_points all_swap_points : points) : result (points * points) :=
  match csv_files with
  | [] => Ok (all_points, all_swap_points)
  | f :: rest =>
      p <- file_points f ;;
      pool_loop rest (all_points ++ p.1) (all_swap_points ++ p.2)
  end.

(** ** The aggregator (lines 31-35 and 47-51) *)

(** [mem_dict[x].append(y)] on a [defaultdict(list)] *)
Definition append_at (d : gmap Qc (list Qc)) (x y : Qc) : gmap Qc (list Qc) :=
  <[x := default [] (d !! x) ++ [y]]> d.

(** [for x, y in all_points: mem_dict[x].append(y)] *)
Definition group_by_timestamp (pts : points) : gmap Qc (list Qc) :=
  foldl (λ d p, append_at d p.1 p.2) ∅ pts.

(** [sorted(...)] on numbers *)
Definition sorted (l : list Qc) : list Qc := merge_sort Qcle l.

(** [d.keys()]; the order is irrelevant to [sorted], the keys being distinct *)
Definition keys (d : gmap Qc (list Qc)) : list Qc := elements (dom d).

(** [sum(l)]: from 0, left to right *)
Definition py_sum (l : list Qc) : Qc := foldl Qcplus 0 l.

Definition len (l : list Qc) : Qc := num (Z.of_nat (length l)).

(** [sum(l) / len(l)] *)
Definition mean (l : list Qc) : result Qc :=
  match l with
  | [] => Raise ZeroDivisionError
  | _ => Ok (py_sum l / len l)
  end.

(** [mem_mean_x] and [mem_mean_y] from [all_points] *)
Definition mean_series (pts : points) : result (list Qc * list Qc) :=
  let mem_dict := group_by_timestamp pts in
  let mem_mean_x := sorted (keys mem_dict) in
  mem_mean_y <-
    comprehension (λ t, mean (default [] (mem_dict !! t))) mem_mean_x ;;
  Ok (mem_mean_x, mem_mean_y).

(** ** Figures and the two charts *)

Inductive figure : Type :=
  | CombinedChart
      (mem_scatter mem_line swap_scatter swap_line : list Qc * list Qc)
  | ActiveInactiveChart (title : string)
      (timestamps active_anon inactive_anon active_file inactive_file : Series).

(** [xs, ys = zip] of the unpacked points: two tuples, or none when there
    is no point *)
Definition unzip (pts : points) : result (list Qc * list Qc) :=
  match pts with
  | [] => Raise ValueError
  | _ => Ok (pts.*1, pts.*2)
  end.

(** Lines 23-59: the figure saved as [mem_swap_vs_time.png]. *)
Definition combined_chart (all_points all_swap_points : points) : result figure :=
  mem <- unzip all_points ;;
  swap <- unzip all_swap_points ;;
  mem_mean <- mean_series all_points ;;
  swap_mean <- mean_series all_swap_points ;;
  Ok (CombinedChart mem mem_mean swap swap_mean).

(** Lines 67-84: the figure of one file. *)
Definition active_inactive_chart (f : csv_file) : result figure :=
  df <- read_csv f ;;
  timestamps <- to_numpy df "timestamp" ;;
  active_anon <- truediv_mb df "active_anon" ;;
  inactive_anon <- truediv_mb df "inactive_anon" ;;
  active_file <- truediv_mb df "active_file" ;;
  inactive_file <- truediv_mb df "inactive_file" ;;
  Ok (ActiveInactiveChart
        ("Listes actives/inactives (" +:+ basename (path f) +:+ ")")
        timestamps active_anon inactive_anon active_file inactive_file).

(** Line 86 *)
Definition img_file (csv_file : string) : string :=
  (splitext csv_file).1 +:+ "_active_inactive.png".

(** ** The run *)

(** What a run leaves: the images saved, in order, and the exception that
    ended it, if any. *)
Abbreviation outcome := (list (string * figure) * option error)%type.

(** Lines 66-88, [written] being the images saved so far. *)
Fixpoint per_file_loop (csv_files : list csv_file)
    (written : list (string * figure)) : outcome :=
  match csv_files with
  | [] => (written, None)
  | f :: rest =>
      match active_inactive_chart f with
      | Raise e => (written, Some e)
      | Ok fig => per_file_loop rest (written ++ [(img_file (path f), fig)])
      end
  end.

(** Lines 12-59: pooling, then the combined figure. *)
Definition first_pass (csv_files : list csv_file) : result figure :=
  p <- pool_loop csv_files [] [] ;; combined_chart p.1 p.2.

Definition run (csv_dir : string) (listing : list entry) : outcome :=
  let csv_files := glob csv_dir listing in
  match first_pass csv_files with
  | Raise e => ([], Some e)
  | Ok fig =>
      per_file_loop csv_files [(join csv_dir "mem_swap_vs_time.png", fig)]
  end.

(** The script, given the command line and the directories of the file
    system. *)
Definition main (argv : list string) (ls : string → list entry) : outcome :=
  let csv_dir := csv_dir_of argv in
  run csv_dir (ls csv_dir).

(** The two mean curves of a combined figure. *)
Definition mem_line (fig : figure) : list Qc * list Qc :=
  match fig with
  | CombinedChart _ l _ _ => l
  | ActiveInactiveChart _ _ _ _ _ _ => ([], [])
  end.
Definition swap_line (fig : figure) : list Qc * list Qc :=
  match fig with
  | CombinedChart _ _ _ l => l
  | ActiveInactiveChart _ _ _ _ _ _ => ([], [])
  end.

(** ** Vocabulary of the statements *)

(** [c in s] *)
Fixpoint contains (c : ascii) (s : string) : bool :=
  match s with
  | EmptyString => false
  | String a s' => Ascii.eqb a c || contains c s'
  end.

(** The exceptions of reading the columns [cols] of a table: one of them
    is absent, or a String column is divided. *)
Definition column_failure (cols : list string) (fr : frame) (e : error) : Prop :=
  match fr with
  | Numeric df => ∃ c, c ∈ cols ∧ df !! c = None ∧ e = ColumnNotFoundError c
  | Strings columns =>
      e = TypeError
      ∨ (∃ c, c ∈ cols ∧ (c ∉ columns) ∧ e = ColumnNotFoundError c)
  end.


(** A table as polars builds it: all its columns have the same length. *)
Definition rectangular (df : DataFrame) : Prop :=
  ∀ c1 c2 s1 s2, df !! c1 = Some s1 → df !! c2 = Some s2 →
                 length s1 = length s2.

(** The columns of the first pass and those of the second. *)
Definition combined_columns : list string :=
  ["timestamp"; "current_memory_usage"; "current_swap_usage"].
Definition active_inactive_columns : list string :=
  ["active_anon"; "inactive_anon"; "active_file"; "inactive_file"].
Definition required_columns : list string :=
  combined_columns ++ active_inactive_columns.

Definition has_columns (cols : list string) (f : csv_file) : Prop :=
  ∃ df, content f = Some (Numeric df) ∧ ∀ c, c ∈ cols → is_Some (df !! c).

(** The values of the samples whose timestamp is exactly [t], in the order
    of the samples. *)
Definition samples_at (t : Qc) (pts : points) : list Qc :=
  (filter (λ p, p.1 = t) pts).*2.

(** The sum of the values divided by their number. *)
Definition arithmetic_mean (l : list Qc) : Qc :=
  foldr Qcplus 0 l / num (Z.of_nat (length l)).

(** What the specification asks of the aggregate of [pts]: ascending
    distinct timestamps, exactly those of the samples, each with the mean of
    the samples at that timestamp. *)
Definition is_mean_by_timestamp (pts : points) (line : list Qc * list Qc) : Prop :=
  StronglySorted Qclt line.1
  ∧ (∀ t, t ∈ line.1 ↔ t ∈ pts.*1)
  ∧ line.2 = (λ t, arithmetic_mean (samples_at t pts)) <$> line.1.

(** The scenario of the specification: one file of two rows, the
    active/inactive columns of the second row being any numbers. *)
Definition scenario_table (aa ia af il : Qc) : DataFrame :=
  list_to_map
    [("timestamp", [num 0; num 1]);
     ("current_memory_usage", [num 1048576; num 2097152]);
     ("current_swap_usage", [num 0; num 1048576]);
     ("active_anon", [num 0; aa]);
     ("inactive_anon", [num 0; ia]);
     ("active_file", [num 0; af]);
     ("inactive_file", [num 0; il])].

(** A file without its four active/inactive columns. *)
Definition without_active_inactive (f : csv_file) : csv_file :=
  CsvFile (path f)
    ((λ fr : frame,
        match fr with
        | Numeric df => Numeric (foldr delete df active_inactive_columns)
        | Strings columns =>
            Strings (filter (λ c, c ∉ active_inactive_columns) columns)
        end) <$> content f).

(** A directory with two logs and a file that is not one. *)
Definition example_listing : list entry :=
  [Entry "a.csv" (Some (Numeric (scenario_table 0 0 0 0)));
   Entry "notes.txt" None;
   Entry "b.csv" (Some (Numeric (scenario_table 1 1 1 1)))].

(** What a figure shows. *)
Definition title (fig : figure) : string :=
  match fig with
  | CombinedChart _ _ _ _ => ""
  | ActiveInactiveChart t _ _ _ _ _ => t
  end.
Definition mem_scatter (fig : figure) : list Qc * list Qc :=
  match fig with
  | CombinedChart sc _ _ _ => sc
  | ActiveInactiveChart _ _ _ _ _ _ => ([], [])
  end.
Definition swap_scatter (fig : figure) : list Qc * list Qc :=
  match fig with
  | CombinedChart _ _ sc _ => sc
  | ActiveInactiveChart _ _ _ _ _ _ => ([], [])
  end.

(** The column [c] of a file, empty when the file or the column is not
    there. *)
Definition column (c : string) (f : csv_file) : Series :=
  match content f with
  | Some (Numeric df) => default [] (df !! c)
  | _ => []
  end.

(** * Properties *)

(** ** Strings and paths *)

Lemma app_cons_str (a : ascii) (s t : string) :
  String a s +:+ t = String a (s +:+ t).
Proof. reflexivity. Qed.

Lemma app_nil_r_str (s : string) : s +:+ "" = s.
Proof. induction s as [|a s IH]; [done|]. by rewrite app_cons_str, IH. Qed.

Lemma app_assoc_str (s t u : string) : (s +:+ t) +:+ u = s +:+ t +:+ u.
Proof.
  induction s as [|a s IH]; [done|]. by rewrite !app_cons_str, IH.
Qed.

Lemma length_app_str (s t : string) :
  String.length (s +:+ t) = (String.length s + String.length t)%nat.
Proof.
  induction s as [|a s IH]; [done|]. rewrite app_cons_str. simpl. by rewrite IH.
Qed.

Lemma app_inj_r_str (s t u : string) : s +:+ u = t +:+ u → s = t.
Proof.
  revert t. induction s as [|a s IH]; intros [|b t] H.
  - done.
  - apply (f_equal String.length) in H.
    rewrite !length_app_str in H. simpl in H. lia.
  - apply (f_equal String.length) in H.
    rewrite !length_app_str in H. simpl in H. lia.
  - rewrite !app_cons_str in H. injection H as -> H. f_equal. by apply IH.
Qed.

Lemma substring_0_app (s t : string) : substring 0 (String.length s) (s +:+ t) = s.
Proof.
  induction s as [|a s IH].
  - change ("" +:+ t) with t. by destruct t.
  - rewrite app_cons_str. simpl. by rewrite IH.
Qed.

Lemma substring_split (n : nat) (s : string) :
  (n ≤ String.length s)%nat →
  s = substring 0 n s +:+ substring n (String.length s - n) s.
Proof.
  revert n. induction s as [|a s IH]; intros n Hn; simpl in *.
  - by destruct n.
  - destruct n as [|n]; simpl.
    + clear IH Hn. change (String a s = String a (substring 0 (String.length s) s)).
      f_equal. rewrite <-(app_nil_r_str s) at 3.
      by rewrite substring_0_app.
    + rewrite app_cons_str. f_equal. apply IH. lia.
Qed.

Lemma get_app_length (s t : string) (a : ascii) :
  String.get (String.length s) (s +:+ String a t) = Some a.
Proof. induction s as [|b s IH]; [done|]. by rewrite app_cons_str. Qed.

Lemma contains_app (c : ascii) (s t : string) :
  contains c (s +:+ t) = contains c s || contains c t.
Proof.
  induction s as [|a s IH]; [done|].
  rewrite app_cons_str. simpl. by rewrite IH, orb_assoc.
Qed.

Lemma rfind_ge (c : ascii) (s : string) : (-1 ≤ rfind c s)%Z.
Proof.
  induction s as [|a s IH]; simpl; [done|].
  destruct (Z.leb_spec 0 (rfind c s)); [lia|]. by destruct (Ascii.eqb a c).
Qed.

Lemma rfind_absent (c : ascii) (s : string) :
  contains c s = false → rfind c s = (-1)%Z.
Proof.
  induction s as [|a s IH]; simpl; [done|].
  intros [Ha Hs]%orb_false_iff. by rewrite (IH Hs), Ha.
Qed.

Lemma rfind_app (c : ascii) (s t : string) :
  rfind c (s +:+ t)
  = if (0 <=? rfind c t)%Z then (Z.of_nat (String.length s) + rfind c t)%Z
    else rfind c s.
Proof.
  induction s as [|a s IH].
  - change ("" +:+ t) with t. simpl.
    destruct (Z.leb_spec 0 (rfind c t)); [done|].
    pose proof (rfind_ge c t). lia.
  - rewrite app_cons_str. simpl rfind. rewrite IH.
    destruct (Z.leb_spec 0 (rfind c t)); [|done].
    destruct (Z.leb_spec 0 (Z.of_nat (String.length s) + rfind c t)); simpl String.length; lia.
Qed.

Lemma rfind_app_found (c : ascii) (s t : string) :
  (0 ≤ rfind c t)%Z →
  rfind c (s +:+ t) = (Z.of_nat (String.length s) + rfind c t)%Z.
Proof.
  intros H. rewrite rfind_app. by destruct (Z.leb_spec 0 (rfind c t)); [|lia].
Qed.

Lemma rfind_app_absent (c : ascii) (s t : string) :
  contains c t = false → rfind c (s +:+ t) = rfind c s.
Proof. intros H. by rewrite rfind_app, (rfind_absent c t H). Qed.

Lemma endswith_sep_inv (s : string) :
  endswith_sep s = true → ∃ s0, s = s0 +:+ "/".
Proof.
  induction s as [|a s IH]; [done|]. simpl. destruct s as [|b s].
  - intros ->%Ascii.eqb_eq. by exists "".
  - intros [s0 ->]%IH. by exists (String a s0).
Qed.

Lemma endswith_inv (suffix s : string) :
  endswith suffix s = true →
  s = substring 0 (String.length s - String.length suffix) s +:+ suffix.
Proof.
  unfold endswith. intros [Hlen Heq]%andb_true_iff.
  apply Nat.leb_le in Hlen. apply String.eqb_eq in Heq.
  rewrite (substring_split (String.length s - String.length suffix) s) at 1
    by lia.
  f_equal. rewrite <-Heq at 3. f_equal. lia.
Qed.

(** The prefix that [join] puts before a relative name. *)
Lemma join_relative (a b : string) :
  startswith_sep b = false → join a b = join a "" +:+ b.
Proof.
  intros Hb. unfold join. rewrite Hb. simpl startswith_sep. cbv iota.
  destruct (String.eqb a "" || endswith_sep a).
  - by rewrite app_nil_r_str.
  - by rewrite app_nil_r_str, app_assoc_str.
Qed.

Lemma join_empty_cases (a : string) :
  join a "" = "" ∨ ∃ d, join a "" = d +:+ "/".
Proof.
  unfold join. simpl startswith_sep. cbv iota.
  destruct (String.eqb_spec a "") as [->|Hne]; simpl; [by left|].
  rewrite app_nil_r_str. right.
  destruct (endswith_sep a) eqn:He.
  - apply endswith_sep_inv in He as [d ->]. by exists d.
  - by exists a.
Qed.

(** [splitext] of a file name with a last extension [.csv], below a
    directory prefix. *)
Lemma splitext_csv (d stem : string) (c : ascii) :
  (d = "" ∨ ∃ d0, d = d0 +:+ "/") →
  c ≠ extsep → contains sep (String c stem) = false →
  splitext (d +:+ String c stem +:+ ".csv") = (d +:+ String c stem, ".csv").
Proof.
  intros Hd Hc Hsep. unfold splitext.
  assert (rfind extsep (d +:+ String c stem +:+ ".csv")
          = Z.of_nat (String.length d + String.length (String c stem))) as ->.
  { rewrite (rfind_app_found extsep d);
      rewrite (rfind_app_found extsep (String c stem) ".csv");
      change (rfind extsep ".csv") with 0%Z; lia. }
  assert (rfind sep (d +:+ String c stem +:+ ".csv")
          = (Z.of_nat (String.length d) - 1)%Z) as ->.
  { rewrite rfind_app_absent by (by rewrite contains_app, Hsep).
    destruct Hd as [->|[d0 ->]]; [done|].
    rewrite rfind_app_found; change (rfind sep "/") with 0%Z; [|done].
    rewrite length_app_str. simpl String.length. lia. }
  replace (Z.to_nat (Z.of_nat (String.length d) - 1 + 1))
    with (String.length d) by lia.
  replace (Z.to_nat (Z.of_nat (String.length d + String.length (String c stem))
                     - (Z.of_nat (String.length d) - 1 + 1)))
    with (S (String.length stem)) by (simpl String.length; lia).
  simpl skip_leading_dots. rewrite app_cons_str, get_app_length.
  apply Ascii.eqb_neq in Hc. rewrite Hc, andb_true_r.
  destruct (Z.ltb_spec (Z.of_nat (String.length d) - 1)
              (Z.of_nat (String.length d + String.length (String c stem))));
    [|lia].
  unfold take_str, drop_str. rewrite Nat2Z.id.
  rewrite <-app_cons_str, <-app_assoc_str, <-length_app_str.
  f_equal; [apply substring_0_app|].
  pose proof (substring_split (String.length (d +:+ String c stem))
                ((d +:+ String c stem) +:+ ".csv")) as Hsplit.
  rewrite substring_0_app in Hsplit.
  eapply String.app_inj. symmetry. apply Hsplit.
  rewrite (length_app_str (d +:+ String c stem) ".csv"). lia.
Qed.

(** A name that [glob] matches against [*.csv] is a non-empty stem, not
    starting with a dot, followed by [.csv]. *)
Lemma matches_csv_inv (n : string) :
  matches_csv n = true →
  ∃ c stem, n = String c stem +:+ ".csv" ∧ c ≠ extsep.
Proof.
  unfold matches_csv. intros [Hhid Hend]%andb_true_iff.
  apply negb_true_iff in Hhid. apply endswith_inv in Hend.
  remember (substring 0 (String.length n - String.length ".csv") n) as st
    eqn:Hst.
  clear Hst. subst n. destruct st as [|c stem].
  - discriminate.
  - exists c, stem. split; [done|]. intros ->.
    rewrite app_cons_str in Hhid. by destruct stem.
Qed.

(** ** The exception monad *)

Lemma bind_Ok {A B} (r : result A) (k : A → result B) (b : B) :
  bind r k = Ok b ↔ ∃ a, r = Ok a ∧ k a = Ok b.
Proof.
  destruct r as [a|e]; simpl; split.
  - eauto.
  - intros (a' & [= <-] & Hk). exact Hk.
  - discriminate.
  - intros (a' & Habs & _). discriminate.
Qed.

Lemma bind_Raise {A B} (r : result A) (k : A → result B) (e : error) :
  bind r k = Raise e ↔ r = Raise e ∨ ∃ a, r = Ok a ∧ k a = Raise e.
Proof.
  destruct r as [a|e']; simpl; split.
  - eauto.
  - intros [Habs|(a' & [= <-] & Hk)]; [discriminate|exact Hk].
  - intros [= ->]. by left.
  - intros [[= ->]|(a' & Habs & _)]; [done|discriminate].
Qed.

Lemma comprehension_total {A B} (f : A → result B) (g : A → B) (l : list A) :
  (∀ a, a ∈ l → f a = Ok (g a)) → comprehension f l = Ok (g <$> l).
Proof.
  induction l as [|a l IH]; intros Hf; simpl; [done|].
  rewrite Hf by left. simpl.
  rewrite IH; [done|]. intros a' Ha'. apply Hf. by right.
Qed.

(** ** The aggregator *)

Lemma lookup_append_at (d : gmap Qc (list Qc)) (x y t : Qc) :
  default [] (append_at d x y !! t)
  = default [] (d !! t) ++ (if decide (x = t) then [y] else []).
Proof.
  unfold append_at. destruct (decide (x = t)) as [->|Hne].
  - by rewrite lookup_insert_eq.
  - rewrite lookup_insert_ne by done. by rewrite app_nil_r.
Qed.

Lemma dom_append_at (d : gmap Qc (list Qc)) (x y : Qc) :
  dom (append_at d x y) = {[x]} ∪ dom d.
Proof. unfold append_at. apply dom_insert_L. Qed.

Lemma samples_at_cons (t : Qc) (p : Qc * Qc) (pts : points) :
  samples_at t (p :: pts)
  = (if decide (p.1 = t) then [p.2] else []) ++ samples_at t pts.
Proof.
  unfold samples_at. rewrite filter_cons.
  destruct (decide (p.1 = t)); done.
Qed.

Lemma lookup_group_acc (pts : points) (d : gmap Qc (list Qc)) (t : Qc) :
  default [] (foldl (λ d p, append_at d p.1 p.2) d pts !! t)
  = default [] (d !! t) ++ samples_at t pts.
Proof.
  revert d. induction pts as [|p pts IH]; intros d; simpl.
  - unfold samples_at. simpl. by rewrite app_nil_r.
  - rewrite IH, lookup_append_at, samples_at_cons. by rewrite <-(assoc_L (++)).
Qed.

Lemma lookup_group (pts : points) (t : Qc) :
  default [] (group_by_timestamp pts !! t) = samples_at t pts.
Proof. unfold group_by_timestamp. by rewrite lookup_group_acc, lookup_empty. Qed.

Lemma dom_group_acc (pts : points) (d : gmap Qc (list Qc)) :
  dom (foldl (λ d p, append_at d p.1 p.2) d pts) = dom d ∪ list_to_set pts.*1.
Proof.
  revert d. induction pts as [|p pts IH]; intros d; simpl.
  - set_solver.
  - rewrite IH, dom_append_at. set_solver.
Qed.

Lemma dom_group (pts : points) :
  dom (group_by_timestamp pts) = list_to_set pts.*1.
Proof. unfold group_by_timestamp. rewrite dom_group_acc. set_solver. Qed.

Lemma elem_of_keys_group (pts : points) (t : Qc) :
  t ∈ keys (group_by_timestamp pts) ↔ t ∈ pts.*1.
Proof. unfold keys. rewrite elem_of_elements, dom_group. set_solver. Qed.

Lemma samples_at_nonempty (t : Qc) (pts : points) :
  t ∈ pts.*1 ↔ samples_at t pts ≠ [].
Proof.
  induction pts as [|p pts IH]; simpl.
  - split; [by intros ?%elem_of_nil|done].
  - rewrite samples_at_cons, elem_of_cons.
    destruct (decide (p.1 = t)) as [->|Hne]; simpl.
    + split; [done|by left].
    + rewrite <-IH. split; [intros [?|?]; [congruence|done]|by right].
Qed.

Lemma elem_of_sorted (l : list Qc) (t : Qc) : t ∈ sorted l ↔ t ∈ l.
Proof. unfold sorted. by rewrite merge_sort_Permutation. Qed.

Lemma sorted_ascending (l : list Qc) : StronglySorted Qcle (sorted l).
Proof. apply (StronglySorted_merge_sort Qcle); apply _. Qed.

Lemma NoDup_sorted_keys (d : gmap Qc (list Qc)) : NoDup (sorted (keys d)).
Proof.
  unfold sorted, keys. rewrite merge_sort_Permutation. apply NoDup_elements.
Qed.

Lemma StronglySorted_le_lt (l : list Qc) :
  StronglySorted Qcle l → NoDup l → StronglySorted Qclt l.
Proof.
  induction 1 as [|x l Hl IH Hx]; intros Hnd; [constructor|].
  apply NoDup_cons in Hnd as [Hx' Hnd]. constructor; [by apply IH|].
  apply Forall_forall. intros y Hy.
  rewrite Forall_forall in Hx. specialize (Hx y Hy).
  apply Qcle_lt_or_eq in Hx as [Hlt| ->]; [done|]. by destruct Hx'.
Qed.

Lemma py_sum_acc (l : list Qc) (a : Qc) :
  foldl Qcplus a l = a + foldr Qcplus 0 l.
Proof.
  revert a. induction l as [|x l IH]; intros a; simpl.
  - by rewrite Qcplus_0_r.
  - by rewrite IH, Qcplus_assoc.
Qed.

Lemma py_sum_foldr (l : list Qc) : py_sum l = foldr Qcplus 0 l.
Proof. unfold py_sum. by rewrite py_sum_acc, Qcplus_0_l. Qed.

Lemma mean_nonempty (l : list Qc) : l ≠ [] → mean l = Ok (arithmetic_mean l).
Proof.
  intros Hl. unfold arithmetic_mean. rewrite <-py_sum_foldr. by destruct l.
Qed.

(** The mean series in closed form: the distinct timestamps in ascending
    order, each with the mean of its samples. *)
Lemma mean_series_eq (pts : points) :
  mean_series pts
  = Ok (sorted (keys (group_by_timestamp pts)),
        (λ t, arithmetic_mean (samples_at t pts))
          <$> sorted (keys (group_by_timestamp pts))).
Proof.
  unfold mean_series.
  rewrite (comprehension_total _ (λ t, arithmetic_mean (samples_at t pts)));
    [done|].
  intros t Ht. rewrite lookup_group. apply mean_nonempty.
  apply samples_at_nonempty. by apply elem_of_keys_group, elem_of_sorted.
Qed.

(** *** Independence of the order of the samples *)

Lemma foldr_Qcplus_perm (l1 l2 : list Qc) :
  l1 ≡ₚ l2 → foldr Qcplus 0 l1 = foldr Qcplus 0 l2.
Proof.
  intros Hp.
  induction Hp as [|x l1 l2 _ IH|x y l|l1 l2 l3 _ IH1 _ IH2]; simpl.
  - done.
  - by rewrite IH.
  - by rewrite !Qcplus_assoc, (Qcplus_comm y x).
  - by rewrite IH1.
Qed.

Lemma arithmetic_mean_perm (l1 l2 : list Qc) :
  l1 ≡ₚ l2 → arithmetic_mean l1 = arithmetic_mean l2.
Proof.
  intros Hp. unfold arithmetic_mean.
  by rewrite (foldr_Qcplus_perm _ _ Hp), (Permutation_length Hp).
Qed.

Lemma samples_at_perm (t : Qc) (pts1 pts2 : points) :
  pts1 ≡ₚ pts2 → samples_at t pts1 ≡ₚ samples_at t pts2.
Proof. intros Hp. unfold samples_at. by rewrite Hp. Qed.

Lemma keys_group_perm (pts1 pts2 : points) :
  pts1 ≡ₚ pts2 →
  keys (group_by_timestamp pts1) = keys (group_by_timestamp pts2).
Proof.
  intros Hp. unfold keys. rewrite !dom_group. f_equal.
  apply list_to_set_perm_L. by rewrite Hp.
Qed.

Lemma mean_series_perm (pts1 pts2 : points) :
  pts1 ≡ₚ pts2 → mean_series pts1 = mean_series pts2.
Proof.
  intros Hp. rewrite !mean_series_eq, (keys_group_perm _ _ Hp).
  do 2 f_equal. apply list_fmap_ext. intros _ t _.
  apply arithmetic_mean_perm, samples_at_perm, Hp.
Qed.

(** ** Reading the columns *)

Lemma getitem_Ok (df : DataFrame) (col : string) (s : Series) :
  getitem df col = Ok s ↔ df !! col = Some s.
Proof.
  unfold getitem. destruct (df !! col); split; intros H; by simplify_eq.
Qed.

Lemma getitem_absent (df : DataFrame) (col : string) :
  df !! col = None → getitem df col = Raise (ColumnNotFoundError col).
Proof. unfold getitem. by intros ->. Qed.

Lemma getitem_Raise (df : DataFrame) (col : string) (e : error) :
  getitem df col = Raise e ↔ df !! col = None ∧ e = ColumnNotFoundError col.
Proof.
  unfold getitem. destruct (df !! col); split;
    [done|by intros [? _]|by intros [= <-]|by intros [_ ->]].
Qed.

Lemma read_csv_Ok (f : csv_file) (fr : frame) :
  read_csv f = Ok fr ↔ content f = Some fr.
Proof.
  unfold read_csv. destruct (content f); split; intros H; by simplify_eq.
Qed.

Lemma truediv_mb_numeric (df : DataFrame) (col : string) (s : Series) :
  df !! col = Some s → truediv_mb (Numeric df) col = Ok (div_mb s).
Proof. intros H. simpl. unfold getitem. by rewrite H. Qed.

Lemma truediv_mb_Ok (fr : frame) (col : string) (s : Series) :
  truediv_mb fr col = Ok s ↔
  ∃ df raw, fr = Numeric df ∧ df !! col = Some raw ∧ s = div_mb raw.
Proof.
  split.
  - destruct fr as [df|columns]; simpl; [|by case_decide].
    unfold getitem. destruct (df !! col) as [raw|] eqn:Hcol; simpl; [|done].
    intros [= <-]. eauto.
  - intros (df & raw & -> & Hraw & ->). by apply truediv_mb_numeric.
Qed.

Lemma truediv_mb_Raise (fr : frame) (col : string) (e : error) :
  truediv_mb fr col = Raise e ↔
  (∃ df, fr = Numeric df ∧ df !! col = None ∧ e = ColumnNotFoundError col)
  ∨ (∃ columns, fr = Strings columns
                ∧ ((col ∈ columns ∧ e = TypeError)
                   ∨ ((col ∉ columns) ∧ e = ColumnNotFoundError col))).
Proof.
  split.
  - destruct fr as [df|columns]; simpl.
    + unfold getitem. destruct (df !! col) as [raw|] eqn:Hcol; simpl; [done|].
      intros [= <-]. left. eauto.
    + case_decide; intros [= <-]; right; eauto.
  - intros [(df & -> & Hcol & ->)|(columns & -> & [[Hin ->]|[Hin ->]])]; simpl.
    + unfold getitem. by rewrite Hcol.
    + by rewrite decide_True.
    + by rewrite decide_False.
Qed.

Lemma to_numpy_Raise (fr : frame) (col : string) (e : error) :
  to_numpy fr col = Raise e ↔
  e = ColumnNotFoundError col
  ∧ ((∃ df, fr = Numeric df ∧ df !! col = None)
     ∨ (∃ columns, fr = Strings columns ∧ col ∉ columns)).
Proof.
  split.
  - destruct fr as [df|columns]; simpl.
    + intros [Hcol ->]%getitem_Raise. split; [done|]. left. eauto.
    + case_decide; [done|]. intros [= <-]. split; [done|]. right. eauto.
  - intros [-> [(df & -> & Hcol)|(columns & -> & Hin)]]; simpl.
    + by apply getitem_absent.
    + by rewrite decide_False.
Qed.

Lemma file_points_Ok (f : csv_file) (df : DataFrame) (ts m sw : Series) :
  content f = Some (Numeric df) →
  df !! "timestamp" = Some ts →
  df !! "current_memory_usage" = Some m →
  df !! "current_swap_usage" = Some sw →
  file_points f = Ok (zip ts (div_mb m), zip ts (div_mb sw)).
Proof.
  intros Hc Hts Hm Hsw. unfold file_points, read_csv. rewrite Hc. simpl.
  unfold getitem. by rewrite Hts; simpl; rewrite Hm; simpl; rewrite Hsw.
Qed.

Lemma file_points_inv (f : csv_file) (p : points * points) :
  file_points f = Ok p →
  ∃ df ts m sw,
    content f = Some (Numeric df) ∧ df !! "timestamp" = Some ts
    ∧ df !! "current_memory_usage" = Some m
    ∧ df !! "current_swap_usage" = Some sw
    ∧ p = (zip ts (div_mb m), zip ts (div_mb sw)).
Proof.
  unfold file_points. intros H.
  apply bind_Ok in H as (fr & Hfr & H). apply bind_Ok in H as (ts & Hts & H).
  apply bind_Ok in H as (m' & Hm & H). apply bind_Ok in H as (sw' & Hsw & H).
  apply read_csv_Ok in Hfr.
  apply truediv_mb_Ok in Hm as (df & m & -> & Hm & ->).
  apply truediv_mb_Ok in Hsw as (df' & sw & [= <-] & Hsw & ->).
  apply getitem_Ok in Hts. exists df, ts, m, sw. by simplify_eq.
Qed.

Lemma file_points_has_columns (f : csv_file) :
  (∃ p, file_points f = Ok p) ↔ has_columns combined_columns f.
Proof.
  split.
  - intros [p (df & ts & m & sw & Hc & Hts & Hm & Hsw & _)%file_points_inv].
    exists df. split; [done|]. intros c Hc'. unfold combined_columns in Hc'.
    set_unfold in Hc'. destruct Hc' as [->|[->|[->|[]]]]; eauto.
  - intros (df & Hc & Hcols).
    destruct (Hcols "timestamp") as [ts Hts]; [set_solver|].
    destruct (Hcols "current_memory_usage") as [m Hm]; [set_solver|].
    destruct (Hcols "current_swap_usage") as [sw Hsw]; [set_solver|].
    eexists. by eapply file_points_Ok.
Qed.

Lemma active_inactive_chart_Ok (f : csv_file) (df : DataFrame)
    (ts aa ia af il : Series) :
  content f = Some (Numeric df) →
  df !! "timestamp" = Some ts →
  df !! "active_anon" = Some aa →
  df !! "inactive_anon" = Some ia →
  df !! "active_file" = Some af →
  df !! "inactive_file" = Some il →
  active_inactive_chart f
  = Ok (ActiveInactiveChart
          ("Listes actives/inactives (" +:+ basename (path f) +:+ ")")
          ts (div_mb aa) (div_mb ia) (div_mb af) (div_mb il)).
Proof.
  intros Hc Hts Haa Hia Haf Hil. unfold active_inactive_chart, read_csv.
  rewrite Hc. simpl. unfold getitem.
  rewrite Hts; simpl; rewrite Haa; simpl.
  by rewrite Hia; simpl; rewrite Haf; simpl; rewrite Hil.
Qed.

Lemma active_inactive_chart_inv (f : csv_file) (fig : figure) :
  active_inactive_chart f = Ok fig →
  ∃ df ts aa ia af il,
    content f = Some (Numeric df) ∧ df !! "timestamp" = Some ts
    ∧ df !! "active_anon" = Some aa ∧ df !! "inactive_anon" = Some ia
    ∧ df !! "active_file" = Some af ∧ df !! "inactive_file" = Some il
    ∧ fig = ActiveInactiveChart
              ("Listes actives/inactives (" +:+ basename (path f) +:+ ")")
              ts (div_mb aa) (div_mb ia) (div_mb af) (div_mb il).
Proof.
  unfold active_inactive_chart. intros H.
  apply bind_Ok in H as (fr & Hfr & H). apply bind_Ok in H as (ts & Hts & H).
  apply bind_Ok in H as (aa' & Haa & H). apply bind_Ok in H as (ia' & Hia & H).
  apply bind_Ok in H as (af' & Haf & H). apply bind_Ok in H as (il' & Hil & H).
  apply read_csv_Ok in Hfr.
  apply truediv_mb_Ok in Haa as (df & aa & -> & Haa & ->).
  apply truediv_mb_Ok in Hia as (? & ia & [= <-] & Hia & ->).
  apply truediv_mb_Ok in Haf as (? & af & [= <-] & Haf & ->).
  apply truediv_mb_Ok in Hil as (? & il & [= <-] & Hil & ->).
  apply getitem_Ok in Hts. exists df, ts, aa, ia, af, il. by simplify_eq.
Qed.

Lemma active_inactive_chart_has_columns (f : csv_file) :
  (∃ fig, active_inactive_chart f = Ok fig)
  ↔ has_columns ("timestamp" :: active_inactive_columns) f.
Proof.
  split.
  - intros [fig (df & ts & aa & ia & af & il & Hc & Hts & Haa & Hia & Haf
                 & Hil & _)%active_inactive_chart_inv].
    exists df. split; [done|]. intros c Hc'.
    unfold active_inactive_columns in Hc'. set_unfold in Hc'.
    destruct Hc' as [->|[->|[->|[->|[->|[]]]]]]; eauto.
  - intros (df & Hc & Hcols). unfold active_inactive_columns in Hcols.
    destruct (Hcols "timestamp") as [ts Hts]; [set_solver|].
    destruct (Hcols "active_anon") as [aa Haa]; [set_solver|].
    destruct (Hcols "inactive_anon") as [ia Hia]; [set_solver|].
    destruct (Hcols "active_file") as [af Haf]; [set_solver|].
    destruct (Hcols "inactive_file") as [il Hil]; [set_solver|].
    eexists. by eapply active_inactive_chart_Ok.
Qed.

(** ** The first pass *)

Lemma pool_loop_acc (csv_files : list csv_file) (a b : points) :
  pool_loop csv_files a b
  = (p <- pool_loop csv_files [] [] ;; Ok (a ++ p.1, b ++ p.2)).
Proof.
  revert a b. induction csv_files as [|f rest IH]; intros a b; simpl.
  - by rewrite !app_nil_r.
  - destruct (file_points f) as [p|e]; simpl; [|done].
    rewrite (IH (a ++ p.1)), (IH p.1).
    destruct (pool_loop rest [] []) as [q|e]; simpl; [|done].
    by rewrite !(assoc_L (++)).
Qed.

Lemma pool_loop_cons (f : csv_file) (rest : list csv_file) :
  pool_loop (f :: rest) [] []
  = (p <- file_points f ;; q <- pool_loop rest [] [] ;;
     Ok (p.1 ++ q.1, p.2 ++ q.2)).
Proof.
  simpl. destruct (file_points f) as [p|e]; simpl; [|done].
  apply pool_loop_acc.
Qed.

Lemma pool_loop_Ok_iff (csv_files : list csv_file) :
  (∃ p, pool_loop csv_files [] [] = Ok p)
  ↔ Forall (has_columns combined_columns) csv_files.
Proof.
  induction csv_files as [|f rest IH].
  - split; [constructor|by eexists].
  - rewrite pool_loop_cons, Forall_cons, <-IH, <-file_points_has_columns.
    destruct (file_points f) as [p|e]; simpl.
    + destruct (pool_loop rest [] []) as [q|e]; simpl.
      * split; eauto.
      * split; [by intros [? ?]|by intros [_ [? ?]]].
    + split; [by intros [? ?]|by intros [[? ?] _]].
Qed.

(** The pooled timestamps are timestamps of the files. *)
Lemma pool_loop_timestamps (csv_files : list csv_file) (p : points * points)
    (t : Qc) :
  pool_loop csv_files [] [] = Ok p →
  t ∈ (p.1).*1 ∨ t ∈ (p.2).*1 →
  ∃ f df ts, f ∈ csv_files ∧ content f = Some (Numeric df)
             ∧ df !! "timestamp" = Some ts ∧ t ∈ ts.
Proof.
  revert p. induction csv_files as [|f rest IH]; intros p.
  - intros [= <-]. simpl. by intros [?%elem_of_nil|?%elem_of_nil].
  - rewrite pool_loop_cons. intros H.
    apply bind_Ok in H as (pf & Hf & H). apply bind_Ok in H as (q & Hq & H).
    injection H as <-. simpl. rewrite !fmap_app, !elem_of_app.
    intros Ht.
    assert (t ∈ (pf.1).*1 ∨ t ∈ (pf.2).*1 ∨ t ∈ (q.1).*1 ∨ t ∈ (q.2).*1)
      as [Hin|[Hin|Hin]] by tauto.
    + apply file_points_inv in Hf as (df & ts & m & sw & Hc & Hts & _ & _ & ->).
      exists f, df, ts. repeat split; [by left|done|done|].
      simpl in Hin. apply list_elem_of_fmap in Hin as ([x y] & -> & Hin).
      by apply elem_of_zip_l in Hin.
    + apply file_points_inv in Hf as (df & ts & m & sw & Hc & Hts & _ & _ & ->).
      exists f, df, ts. repeat split; [by left|done|done|].
      simpl in Hin. apply list_elem_of_fmap in Hin as ([x y] & -> & Hin).
      by apply elem_of_zip_l in Hin.
    + destruct (IH q Hq) as (f' & df & ts & Hf' & ?); [tauto|].
      exists f', df, ts. split; [by right|done].
Qed.

(** Enumerating the files in another order permutes the pooled samples. *)
Lemma pool_loop_perm (fs1 fs2 : list csv_file) :
  fs1 ≡ₚ fs2 →
  ∀ p, pool_loop fs1 [] [] = Ok p →
  ∃ q, pool_loop fs2 [] [] = Ok q ∧ p.1 ≡ₚ q.1 ∧ p.2 ≡ₚ q.2.
Proof.
  induction 1 as [|f fs1 fs2 _ IH|f g fs|fs1 fs2 fs3 _ IH1 _ IH2]; intros p.
  - intros [= <-]. by eexists.
  - rewrite !pool_loop_cons. intros H.
    apply bind_Ok in H as (pf & Hf & H). apply bind_Ok in H as (q & Hq & H).
    injection H as <-. destruct (IH q Hq) as (q' & -> & H1 & H2).
    rewrite Hf. simpl. eexists; split; [done|]. simpl. by rewrite H1, H2.
  - rewrite !pool_loop_cons. intros H.
    apply bind_Ok in H as (pg & Hg & H). apply bind_Ok in H as (q & Hq & H).
    injection H as <-.
    apply bind_Ok in Hq as (pf & Hf & H). apply bind_Ok in H as (r & Hr & H).
    injection H as <-. rewrite Hf. simpl. rewrite Hg. simpl.
    rewrite Hr. simpl. eexists; split; [done|]. simpl.
    rewrite !(assoc_L (++)).
    split; apply Permutation_app_tail, Permutation_app_comm.
  - intros Hp. destruct (IH1 p Hp) as (q & Hq & H1 & H2).
    destruct (IH2 q Hq) as (r & Hr & H3 & H4).
    exists r. split; [done|]. split; by etrans.
Qed.

(** ** The combined chart *)

Lemma unzip_Ok (pts : points) :
  pts ≠ [] → unzip pts = Ok (pts.*1, pts.*2).
Proof. by destruct pts. Qed.

Lemma combined_chart_Ok (pts swap_pts : points) :
  pts ≠ [] → swap_pts ≠ [] →
  combined_chart pts swap_pts
  = Ok (CombinedChart
          (pts.*1, pts.*2)
          (sorted (keys (group_by_timestamp pts)),
           (λ t, arithmetic_mean (samples_at t pts))
             <$> sorted (keys (group_by_timestamp pts)))
          (swap_pts.*1, swap_pts.*2)
          (sorted (keys (group_by_timestamp swap_pts)),
           (λ t, arithmetic_mean (samples_at t swap_pts))
             <$> sorted (keys (group_by_timestamp swap_pts)))).
Proof.
  intros H1 H2. unfold combined_chart.
  by rewrite !unzip_Ok, !mean_series_eq.
Qed.

Lemma combined_chart_Raise (pts swap_pts : points) (e : error) :
  combined_chart pts swap_pts = Raise e
  ↔ e = ValueError ∧ (pts = [] ∨ swap_pts = []).
Proof.
  destruct pts as [|p pts].
  { simpl. split; [intros [= <-]; auto|by intros [-> _]]. }
  destruct swap_pts as [|q swap_pts].
  { simpl. split; [intros [= <-]; auto|by intros [-> _]]. }
  rewrite combined_chart_Ok by done. split; [done|by intros [_ [?|?]]].
Qed.

(** ** The second pass *)

Lemma per_file_loop_prefix (csv_files : list csv_file)
    (written : list (string * figure)) :
  ∃ more, (per_file_loop csv_files written).1 = written ++ more.
Proof.
  revert written. induction csv_files as [|f rest IH]; intros w; simpl.
  - exists []. by rewrite app_nil_r.
  - destruct (active_inactive_chart f) as [fig|e]; simpl.
    + destruct (IH (w ++ [(img_file (path f), fig)])) as [more ->].
      eexists. by rewrite <-(assoc_L (++)).
    + exists []. by rewrite app_nil_r.
Qed.

Lemma per_file_loop_None (csv_files : list csv_file)
    (written written' : list (string * figure)) :
  per_file_loop csv_files written = (written', None) →
  ∃ figs, Forall2 (λ f fig, active_inactive_chart f = Ok fig) csv_files figs
          ∧ written' = written ++ zip (img_file ∘ path <$> csv_files) figs.
Proof.
  revert written. induction csv_files as [|f rest IH]; intros w; simpl.
  - intros [= <-]. exists []. split; [constructor|by rewrite app_nil_r].
  - destruct (active_inactive_chart f) as [fig|e] eqn:Hf; [|done].
    intros (figs & HF & ->)%IH. exists (fig :: figs).
    split; [by constructor|]. simpl. by rewrite <-(assoc_L (++)).
Qed.

Lemma per_file_loop_Some (csv_files : list csv_file)
    (written : list (string * figure)) :
  (∃ e, (per_file_loop csv_files written).2 = Some e)
  ↔ Exists (λ f, ∃ e, active_inactive_chart f = Raise e) csv_files.
Proof.
  revert written. induction csv_files as [|f rest IH]; intros w; simpl.
  - rewrite Exists_nil. split; [by intros [? ?]|done].
  - rewrite Exists_cons.
    destruct (active_inactive_chart f) as [fig|e] eqn:Hf; simpl.
    + rewrite IH. split; [by right|]. by intros [[? ?]|?].
    + split; eauto.
Qed.


(** ** [glob] and the names of the images *)

Lemma glob_perm (csv_dir : string) (listing1 listing2 : list entry) :
  listing1 ≡ₚ listing2 → glob csv_dir listing1 ≡ₚ glob csv_dir listing2.
Proof. intros Hp. unfold glob. by rewrite Hp. Qed.


(** The image of a globbed file is written next to it, under the name of
    the file with [.csv] replaced. *)
Lemma img_file_glob (csv_dir : string) (e : entry) :
  matches_csv (name e) = true → contains sep (name e) = false →
  ∃ stem,
    name e = stem +:+ ".csv"
    ∧ img_file (join csv_dir (name e))
      = join csv_dir (stem +:+ "_active_inactive.png")
    ∧ ∀ suffix, startswith_sep (stem +:+ suffix) = false.
Proof.
  intros (c & stem & Hn & Hc)%matches_csv_inv Hsep. rewrite Hn in Hsep |- *.
  rewrite contains_app in Hsep. apply orb_false_iff in Hsep as [Hsep _].
  assert (Ascii.eqb c sep = false) as Hc'.
  { simpl in Hsep. by apply orb_false_iff in Hsep as [? _]. }
  exists (String c stem). split; [done|]. split; [|done]. unfold img_file.
  rewrite (join_relative _ (String c stem +:+ ".csv")),
    (join_relative _ (String c stem +:+ "_active_inactive.png"))
    by (rewrite app_cons_str; exact Hc').
  rewrite splitext_csv; [|apply join_empty_cases|done|done].
  simpl fst. by rewrite app_assoc_str.
Qed.

(** ** The run *)

Lemma to_numpy_failure (cols : list string) (fr : frame) (c : string)
    (e : error) :
  c ∈ cols → to_numpy fr c = Raise e → column_failure cols fr e.
Proof.
  intros Hc [-> [(df & -> & Hnone)|(columns & -> & Hin)]]%to_numpy_Raise;
    simpl; [|right]; eauto.
Qed.

Lemma truediv_mb_failure (cols : list string) (fr : frame) (c : string)
    (e : error) :
  c ∈ cols → truediv_mb fr c = Raise e → column_failure cols fr e.
Proof.
  intros Hc [(df & -> & Hnone & ->)
            |(columns & -> & [[_ ->]|[Hin ->]])]%truediv_mb_Raise;
    simpl; [|by left|right]; eauto.
Qed.

Lemma file_points_error (f : csv_file) (e : error) :
  file_points f = Raise e →
  (content f = None ∧ e = ReadError (path f))
  ∨ ∃ fr, content f = Some fr ∧ column_failure combined_columns fr e.
Proof.
  unfold file_points, read_csv. intros Hf.
  destruct (content f) as [fr|]; simpl in Hf; [right|left; by simplify_eq].
  exists fr. split; [done|]. unfold combined_columns.
  apply bind_Raise in Hf as [Hf|(ts & _ & Hf)];
    [by eapply to_numpy_failure; [|exact Hf]; set_solver|].
  apply bind_Raise in Hf as [Hf|(m & _ & Hf)];
    [by eapply truediv_mb_failure; [|exact Hf]; set_solver|].
  apply bind_Raise in Hf as [Hf|(sw & _ & Hf)];
    [by eapply truediv_mb_failure; [|exact Hf]; set_solver|done].
Qed.

Lemma pool_loop_error (csv_files : list csv_file) (a b : points) (e : error) :
  pool_loop csv_files a b = Raise e →
  ∃ f, f ∈ csv_files ∧ file_points f = Raise e.
Proof.
  revert a b. induction csv_files as [|f rest IH]; intros a b; simpl; [done|].
  intros [Hf|(p & _ & (f' & Hin & H)%IH)]%bind_Raise.
  - exists f. split; [by left|done].
  - exists f'. split; [by right|done].
Qed.


Lemma column_failure_column (cols : list string) (fr : frame) (c : string) :
  column_failure cols fr (ColumnNotFoundError c) → c ∈ cols.
Proof.
  destruct fr; simpl.
  - by intros (c' & Hin & _ & [= ->]).
  - by intros [?|(c' & Hin & _ & [= ->])].
Qed.


Lemma first_pass_Raise (csv_files : list csv_file) (e : error) :
  first_pass csv_files = Raise e ↔
  pool_loop csv_files [] [] = Raise e
  ∨ ∃ p, pool_loop csv_files [] [] = Ok p
         ∧ e = ValueError ∧ (p.1 = [] ∨ p.2 = []).
Proof.
  unfold first_pass. rewrite bind_Raise.
  by setoid_rewrite combined_chart_Raise.
Qed.

Lemma run_first_pass_Raise (csv_dir : string) (listing : list entry) (e : error) :
  first_pass (glob csv_dir listing) = Raise e →
  run csv_dir listing = ([], Some e).
Proof. unfold run. by intros ->. Qed.

Lemma run_first_pass_Ok (csv_dir : string) (listing : list entry) (fig : figure) :
  first_pass (glob csv_dir listing) = Ok fig →
  run csv_dir listing
  = per_file_loop (glob csv_dir listing)
      [(join csv_dir "mem_swap_vs_time.png", fig)].
Proof. unfold run. by intros ->. Qed.

(** Once the first pass is over, its image stays. *)
Lemma run_keeps_combined (csv_dir : string) (listing : list entry) (fig : figure) :
  first_pass (glob csv_dir listing) = Ok fig →
  ∃ more, (run csv_dir listing).1
          = (join csv_dir "mem_swap_vs_time.png", fig) :: more.
Proof.
  intros ->%run_first_pass_Ok.
  destruct (per_file_loop_prefix (glob csv_dir listing)
              [(join csv_dir "mem_swap_vs_time.png", fig)]) as [more ->].
  by exists more.
Qed.

Lemma pool_loop_concat (csv_files : list csv_file) (p : points * points) :
  pool_loop csv_files [] [] = Ok p →
  ∃ per, Forall2 (λ f q, file_points f = Ok q) csv_files per
         ∧ p = (concat per.*1, concat per.*2).
Proof.
  revert p. induction csv_files as [|f rest IH]; intros p.
  - intros [= <-]. exists []. split; [constructor|done].
  - rewrite pool_loop_cons. intros H.
    apply bind_Ok in H as (pf & Hf & H). apply bind_Ok in H as (q & Hq & H).
    injection H as <-. destruct (IH q Hq) as (per & HF & ->).
    exists (pf :: per). split; [by constructor|done].
Qed.

Lemma mean_series_is_mean (pts : points) :
  ∃ line, mean_series pts = Ok line ∧ is_mean_by_timestamp pts line.
Proof.
  eexists. split; [apply mean_series_eq|]. split_and!; simpl.
  - apply StronglySorted_le_lt; [apply sorted_ascending|apply NoDup_sorted_keys].
  - intros t. by rewrite elem_of_sorted, elem_of_keys_group.
  - done.
Qed.

Lemma first_pass_Ok (csv_files : list csv_file) (fig : figure) :
  first_pass csv_files = Ok fig →
  ∃ p, pool_loop csv_files [] [] = Ok p
       ∧ p.1 ≠ [] ∧ p.2 ≠ []
       ∧ fig = CombinedChart ((p.1).*1, (p.1).*2)
                 (sorted (keys (group_by_timestamp p.1)),
                  (λ t, arithmetic_mean (samples_at t p.1))
                    <$> sorted (keys (group_by_timestamp p.1)))
                 ((p.2).*1, (p.2).*2)
                 (sorted (keys (group_by_timestamp p.2)),
                  (λ t, arithmetic_mean (samples_at t p.2))
                    <$> sorted (keys (group_by_timestamp p.2)))
       ∧ mean_series p.1 = Ok (mem_line fig)
       ∧ mean_series p.2 = Ok (swap_line fig).
Proof.
  unfold first_pass. intros (p & Hp & Hfig)%bind_Ok. exists p.
  destruct (decide (p.1 = [])) as [H1|H1].
  { assert (combined_chart p.1 p.2 = Raise ValueError) as Habs
      by (apply combined_chart_Raise; auto). congruence. }
  destruct (decide (p.2 = [])) as [H2|H2].
  { assert (combined_chart p.1 p.2 = Raise ValueError) as Habs
      by (apply combined_chart_Raise; auto). congruence. }
  rewrite combined_chart_Ok in Hfig by done. injection Hfig as <-.
  split_and!; try done; simpl; apply mean_series_eq.
Qed.

(** * The claims *)

(** C1.  The aggregation groups the samples by exact timestamp, takes the
    arithmetic mean of each group (the sum of its values divided by their
    number) and returns the timestamps in ascending order with their means;
    the combined chart applies it to the memory samples pooled from all the
    files and, separately, to the pooled swap samples. *)
Theorem C1_mean_by_timestamp :
  (∀ pts : points,
     ∃ line, mean_series pts = Ok line ∧ is_mean_by_timestamp pts line)
  ∧ (∀ (csv_files : list csv_file) (fig : figure),
       first_pass csv_files = Ok fig →
       ∃ per,
         Forall2 (λ f q, file_points f = Ok q) csv_files per
         ∧ mean_series (concat per.*1) = Ok (mem_line fig)
         ∧ is_mean_by_timestamp (concat per.*1) (mem_line fig)
         ∧ mean_series (concat per.*2) = Ok (swap_line fig)
         ∧ is_mean_by_timestamp (concat per.*2) (swap_line fig)).
Proof.
  split; [apply mean_series_is_mean|].
  intros csv_files fig (p & Hp & _ & _ & _ & Hm & Hs)%first_pass_Ok.
  apply pool_loop_concat in Hp as (per & HF & ->). simpl in Hm, Hs.
  exists per. split_and!; try done.
  - destruct (mean_series_is_mean (concat per.*1)) as (l & Hl & ?). congruence.
  - destruct (mean_series_is_mean (concat per.*2)) as (l & Hl & ?). congruence.
Qed.

Lemma C1_mean_by_timestamp_witness :
  ∃ fig,
    first_pass [CsvFile "log.csv" (Some (Numeric (scenario_table 0 0 0 0)))] = Ok fig
    ∧ ∃ per,
        Forall2 (λ f q, file_points f = Ok q)
          [CsvFile "log.csv" (Some (Numeric (scenario_table 0 0 0 0)))] per
        ∧ mean_series (concat per.*1) = Ok (mem_line fig)
        ∧ is_mean_by_timestamp (concat per.*1) (mem_line fig)
        ∧ mean_series (concat per.*2) = Ok (swap_line fig)
        ∧ is_mean_by_timestamp (concat per.*2) (swap_line fig).
Proof.
  eexists. split; [vm_compute; reflexivity|].
  apply (proj2 C1_mean_by_timestamp). vm_compute. reflexivity.
Defined.

(** ** The scenario of the specification *)

(** Equality of two numbers, or of lists and pairs of numbers, that compute
    to the same values. *)
Local Ltac same_numbers :=
  repeat first
    [ apply Qc_is_canon; reflexivity
    | reflexivity
    | f_equal ].

Lemma scenario_first_pass (p : string) (aa ia af il : Qc) :
  ∃ fig,
    first_pass [CsvFile p (Some (Numeric (scenario_table aa ia af il)))] = Ok fig
    ∧ mem_line fig = ([num 0; num 1], [num 1; num 2])
    ∧ swap_line fig = ([num 0; num 1], [num 0; num 1]).
Proof.
  eexists. split; [vm_compute; reflexivity|].
  split; simpl; same_numbers.
Qed.

(** C2.  One CSV file with the rows (t=0, mem=1048576, swap=0, 0, 0, 0, 0)
    and (t=1, mem=2097152, swap=1048576, any numbers): the run completes and
    the combined chart has the mean memory series [(0, 1), (1, 2)] and the
    mean swap series [(0, 0), (1, 1)]. *)
Theorem C2_scenario (csv_dir n : string) (aa ia af il : Qc) :
  matches_csv n = true →
  ∃ fig chart,
    run csv_dir [Entry n (Some (Numeric (scenario_table aa ia af il)))]
    = ([(join csv_dir "mem_swap_vs_time.png", fig);
        (img_file (join csv_dir n), chart)], None)
    ∧ mem_line fig = ([num 0; num 1], [num 1; num 2])
    ∧ swap_line fig = ([num 0; num 1], [num 0; num 1]).
Proof.
  intros Hn.
  destruct (scenario_first_pass (join csv_dir n) aa ia af il)
    as (fig & Hfig & Hmem & Hswap).
  assert (glob csv_dir [Entry n (Some (Numeric (scenario_table aa ia af il)))]
          = [CsvFile (join csv_dir n) (Some (Numeric (scenario_table aa ia af il)))])
    as Hglob.
  { unfold glob. rewrite filter_cons, decide_True by done. done. }
  exists fig. eexists. split; [|done].
  rewrite (run_first_pass_Ok _ _ fig) by (by rewrite Hglob).
  rewrite Hglob. simpl.
  by erewrite active_inactive_chart_Ok by (simpl; reflexivity).
Qed.

Lemma C2_scenario_witness :
  ∃ fig chart,
    run "." [Entry "log.csv" (Some (Numeric (scenario_table 0 0 0 0)))]
    = ([("./mem_swap_vs_time.png", fig); ("./log_active_inactive.png", chart)],
       None)
    ∧ mem_line fig = ([num 0; num 1], [num 1; num 2])
    ∧ swap_line fig = ([num 0; num 1], [num 0; num 1]).
Proof. apply (C2_scenario "." "log.csv" 0 0 0 0). reflexivity. Defined.

(** ** Units *)

Lemma to_mb_mult (v : Qc) : to_mb v * num (1024 * 1024) = v.
Proof.
  unfold to_mb, MB, Qcdiv. rewrite <-Qcmult_assoc, (Qcmult_comm (/ _)).
  rewrite Qcmult_inv_r by done. apply Qcmult_1_r.
Qed.

(** C3.  The conversion from bytes to megabytes divides by 1024*1024, so
    1048576 bytes are exactly 1 MB; each file's memory and swap values are
    converted before they are pooled, and its four active/inactive columns
    before they are plotted. *)
Theorem C3_unit_conversion :
  to_mb (num 1048576) = num 1
  ∧ (∀ v, to_mb v = v / num (1024 * 1024) ∧ to_mb v * num (1024 * 1024) = v)
  ∧ (∀ f df ts m sw,
       content f = Some (Numeric df) →
       df !! "timestamp" = Some ts →
       df !! "current_memory_usage" = Some m →
       df !! "current_swap_usage" = Some sw →
       file_points f = Ok (zip ts (to_mb <$> m), zip ts (to_mb <$> sw)))
  ∧ (∀ f df ts aa ia af il,
       content f = Some (Numeric df) →
       df !! "timestamp" = Some ts →
       df !! "active_anon" = Some aa → df !! "inactive_anon" = Some ia →
       df !! "active_file" = Some af → df !! "inactive_file" = Some il →
       ∃ title,
         active_inactive_chart f
         = Ok (ActiveInactiveChart title ts (to_mb <$> aa) (to_mb <$> ia)
                 (to_mb <$> af) (to_mb <$> il))).
Proof.
  split_and!.
  - apply Qc_is_canon. reflexivity.
  - intros v. split; [done|apply to_mb_mult].
  - intros f df ts m sw ? ? ? ?. by apply (file_points_Ok f df).
  - intros f df ts aa ia af il ? ? ? ? ? ?. eexists.
    by apply (active_inactive_chart_Ok f df).
Qed.

Lemma C3_unit_conversion_witness :
  file_points (CsvFile "log.csv" (Some (Numeric (scenario_table 0 0 0 0))))
  = Ok (zip [num 0; num 1] (to_mb <$> [num 1048576; num 2097152]),
        zip [num 0; num 1] (to_mb <$> [num 0; num 1048576])).
Proof.
  apply (proj1 (proj2 (proj2 C3_unit_conversion))
           (CsvFile "log.csv" (Some (Numeric (scenario_table 0 0 0 0))))
           (scenario_table 0 0 0 0)); reflexivity.
Defined.

(** ** The empty pool *)

(** C4.  With no CSV file in the directory the combined-chart step raises on
    unpacking an empty collection: the run ends there, nothing written. *)
Theorem C4_no_csv_file (csv_dir : string) (listing : list entry) :
  glob csv_dir listing = [] →
  run csv_dir listing = ([], Some ValueError).
Proof. intros Hglob. unfold run. by rewrite Hglob. Qed.

Lemma C4_no_csv_file_witness :
  run "." [Entry "notes.txt" None] = ([], Some ValueError).
Proof. apply (C4_no_csv_file "." [Entry "notes.txt" None]). reflexivity. Defined.









(** ** Timestamps of the aggregate *)

(** C6.  The x-values of a mean series are exactly the distinct timestamps
    of the pooled samples, one mean each: a timestamp that is in no input
    file has no entry. *)
Theorem C6_no_zero_fill (csv_files : list csv_file) (p : points * points)
    (pts : points) (line : list Qc * list Qc) :
  pool_loop csv_files [] [] = Ok p →
  pts = p.1 ∨ pts = p.2 →
  mean_series pts = Ok line →
  (∀ t, t ∈ line.1 ↔ t ∈ pts.*1)
  ∧ NoDup line.1
  ∧ length line.2 = length line.1
  ∧ (∀ t, (∀ f df ts, f ∈ csv_files → content f = Some (Numeric df) →
                      df !! "timestamp" = Some ts → t ∉ ts) →
          t ∉ line.1).
Proof.
  intros Hp Hpts. rewrite mean_series_eq. intros [= <-]. simpl.
  assert (∀ t, t ∈ sorted (keys (group_by_timestamp pts)) ↔ t ∈ pts.*1) as Hx.
  { intros t. by rewrite elem_of_sorted, elem_of_keys_group. }
  split_and!.
  - done.
  - apply NoDup_sorted_keys.
  - by rewrite length_fmap.
  - intros t Hno Ht%Hx.
    destruct (pool_loop_timestamps csv_files p t Hp)
      as (f & df & ts & Hf & Hc & Hts & Hin).
    { destruct Hpts as [->| ->]; auto. }
    by apply (Hno f df ts).
Qed.

Lemma C6_no_zero_fill_witness :
  ∃ line,
    mean_series (zip [num 0; num 1] (div_mb [num 1048576; num 2097152]))
    = Ok line
    ∧ (∀ t, t ∈ line.1
            ↔ t ∈ (zip [num 0; num 1] (div_mb [num 1048576; num 2097152])).*1)
    ∧ NoDup line.1
    ∧ length line.2 = length line.1
    ∧ (∀ t, (∀ f df ts,
               f ∈ [CsvFile "log.csv" (Some (Numeric (scenario_table 0 0 0 0)))] →
               content f = Some (Numeric df) → df !! "timestamp" = Some ts → t ∉ ts) →
            t ∉ line.1).
Proof.
  eexists. split; [vm_compute; reflexivity|].
  apply (C6_no_zero_fill
           [CsvFile "log.csv" (Some (Numeric (scenario_table 0 0 0 0)))]
           (zip [num 0; num 1] (div_mb [num 1048576; num 2097152]),
            zip [num 0; num 1] (div_mb [num 0; num 1048576]))).
  - reflexivity.
  - left. reflexivity.
  - vm_compute. reflexivity.
Defined.

(** ** Order of enumeration *)

(** C10.  In exact arithmetic the mean series for memory and for swap do not
    depend on the order in which the files are enumerated and pooled. *)
Theorem C10_order_independent (csv_files1 csv_files2 : list csv_file)
    (fig1 : figure) :
  csv_files1 ≡ₚ csv_files2 →
  first_pass csv_files1 = Ok fig1 →
  ∃ fig2, first_pass csv_files2 = Ok fig2
          ∧ mem_line fig1 = mem_line fig2
          ∧ swap_line fig1 = swap_line fig2.
Proof.
  intros Hperm (p & Hp & Hp1 & Hp2 & _ & Hm & Hs)%first_pass_Ok.
  destruct (pool_loop_perm _ _ Hperm p Hp) as (q & Hq & H1 & H2).
  assert (q.1 ≠ []) as Hq1 by (intros E; rewrite E in H1; by apply Hp1, Permutation_nil_r).
  assert (q.2 ≠ []) as Hq2 by (intros E; rewrite E in H2; by apply Hp2, Permutation_nil_r).
  assert (∃ fig2, first_pass csv_files2 = Ok fig2) as [fig2 Hfig2].
  { unfold first_pass. rewrite Hq. simpl.
    rewrite combined_chart_Ok by done. by eexists. }
  exists fig2. split; [done|].
  apply first_pass_Ok in Hfig2 as (q' & Hq' & _ & _ & _ & Hm' & Hs').
  assert (q' = q) as -> by congruence.
  rewrite (mean_series_perm _ _ H1) in Hm.
  rewrite (mean_series_perm _ _ H2) in Hs.
  split; congruence.
Qed.

Lemma C10_order_independent_witness :
  ∃ fig1 fig2,
    first_pass [CsvFile "a.csv" (Some (Numeric (scenario_table 0 0 0 0)));
                CsvFile "b.csv" (Some (Numeric (scenario_table 1 1 1 1)))] = Ok fig1
    ∧ first_pass [CsvFile "b.csv" (Some (Numeric (scenario_table 1 1 1 1)));
                  CsvFile "a.csv" (Some (Numeric (scenario_table 0 0 0 0)))] = Ok fig2
    ∧ mem_line fig1 = mem_line fig2
    ∧ swap_line fig1 = swap_line fig2.
Proof.
  eexists. 
  destruct (C10_order_independent
              [CsvFile "a.csv" (Some (Numeric (scenario_table 0 0 0 0)));
               CsvFile "b.csv" (Some (Numeric (scenario_table 1 1 1 1)))]
              [CsvFile "b.csv" (Some (Numeric (scenario_table 1 1 1 1)));
               CsvFile "a.csv" (Some (Numeric (scenario_table 0 0 0 0)))]
              _ (perm_swap _ _ []) ltac:(vm_compute; reflexivity))
    as (fig2 & H2 & Hm & Hs).
  exists fig2. split; [vm_compute; reflexivity|]. split_and!; assumption.
Defined.

(** ** The images of the second pass *)

Lemma glob_stems (csv_dir : string) (listing : list entry) :
  (∀ e, e ∈ listing → contains sep (name e) = false) →
  ∃ stems,
    name <$> filter (λ e, matches_csv (name e) = true) listing
    = (λ s, s +:+ ".csv") <$> stems
    ∧ img_file ∘ path <$> glob csv_dir listing
      = (λ s, join csv_dir (s +:+ "_active_inactive.png")) <$> stems
    ∧ Forall (λ s, ∀ suffix, startswith_sep (s +:+ suffix) = false) stems.
Proof.
  induction listing as [|e listing IH]; intros Hsep.
  - exists []. split_and!; [done|done|constructor].
  - destruct IH as (stems & Hnames & Himg & Hrel).
    { intros e' He'. apply Hsep. by right. }
    unfold glob in *. rewrite filter_cons.
    destruct (decide (matches_csv (name e) = true)) as [Hm|Hm].
    + destruct (img_file_glob csv_dir e Hm) as (stem & Hn & Hi & Hr).
      { apply Hsep. by left. }
      exists (stem :: stems). rewrite !fmap_cons. simpl.
      rewrite Hi, Hnames, Himg, Hn. split_and!; [done|done|by constructor].
    + by exists stems.
Qed.

Lemma glob_paths (csv_dir : string) (listing : list entry) :
  path <$> glob csv_dir listing
  = join csv_dir
      <$> (name <$> filter (λ e, matches_csv (name e) = true) listing).
Proof. unfold glob. rewrite <-!list_fmap_compose. done. Qed.

Lemma join_relative_inj (csv_dir suffix s1 s2 : string) :
  startswith_sep (s1 +:+ suffix) = false →
  startswith_sep (s2 +:+ suffix) = false →
  join csv_dir (s1 +:+ suffix) = join csv_dir (s2 +:+ suffix) → s1 = s2.
Proof.
  intros H1 H2.
  rewrite (join_relative _ (s1 +:+ suffix)), (join_relative _ (s2 +:+ suffix))
    by done.
  intros H%String.app_inj. by apply app_inj_r_str in H.
Qed.

(** C5.  When the run completes, it has written, after the combined chart,
    one active/inactive image for each input CSV file, next to the file and
    named after it with [.csv] replaced by [_active_inactive.png]; files of
    different names get different images. *)
Theorem C5_one_image_per_file (csv_dir : string) (listing : list entry)
    (written : list (string * figure)) :
  (∀ e, e ∈ listing → contains sep (name e) = false) →
  run csv_dir listing = (written, None) →
  ∃ fig stems charts,
    path <$> glob csv_dir listing
    = (λ s, join csv_dir (s +:+ ".csv")) <$> stems
    ∧ length charts = length (glob csv_dir listing)
    ∧ written
      = (join csv_dir "mem_swap_vs_time.png", fig)
          :: zip ((λ s, join csv_dir (s +:+ "_active_inactive.png")) <$> stems)
               charts
    ∧ length written = S (length (glob csv_dir listing))
    ∧ (NoDup (name <$> listing) →
       NoDup ((λ s, join csv_dir (s +:+ "_active_inactive.png")) <$> stems)).
Proof.
  intros Hsep Hrun.
  destruct (first_pass (glob csv_dir listing)) as [fig|e] eqn:Hfirst;
    [|by rewrite (run_first_pass_Raise _ _ e) in Hrun].
  rewrite (run_first_pass_Ok _ _ fig) in Hrun by done.
  apply per_file_loop_None in Hrun as (charts & HF & ->).
  destruct (glob_stems csv_dir listing Hsep) as (stems & Hnames & Himg & Hrel).
  exists fig, stems, charts.
  assert (length charts = length (glob csv_dir listing)) as Hlen
    by (symmetry; by eapply Forall2_length).
  assert (length stems = length (glob csv_dir listing)) as Hlen'.
  { apply (f_equal length) in Himg. by rewrite !length_fmap in Himg. }
  split_and!.
  - by rewrite glob_paths, Hnames, <-list_fmap_compose.
  - done.
  - by rewrite Himg.
  - simpl. rewrite length_zip_with, !length_fmap. lia.
  - intros Hnd.
    assert (NoDup stems) as Hst.
    { apply (NoDup_fmap_1 (λ s, s +:+ ".csv")). rewrite <-Hnames.
      eapply sublist_NoDup; [exact Hnd|].
      apply fmap_sublist, sublist_filter. }
    apply NoDup_fmap_2_strong; [|done].
    rewrite Forall_forall in Hrel.
    intros s1 s2 Hs1 Hs2. apply join_relative_inj; by apply Hrel.
Qed.

Lemma C5_one_image_per_file_witness :
  ∃ fig stems charts,
    path <$> glob "logs" example_listing
    = (λ s, join "logs" (s +:+ ".csv")) <$> stems
    ∧ length charts = length (glob "logs" example_listing)
    ∧ (run "logs" example_listing).1
      = (join "logs" "mem_swap_vs_time.png", fig)
          :: zip ((λ s, join "logs" (s +:+ "_active_inactive.png")) <$> stems)
               charts
    ∧ length (run "logs" example_listing).1
      = S (length (glob "logs" example_listing))
    ∧ (NoDup (name <$> example_listing) →
       NoDup ((λ s, join "logs" (s +:+ "_active_inactive.png")) <$> stems)).
Proof.
  apply (C5_one_image_per_file "logs" example_listing).
  - intros e He. unfold example_listing in He. set_unfold in He.
    by destruct He as [->|[->|[->|[]]]].
  - vm_compute. reflexivity.
Defined.

(** ** Required columns *)

Lemma run_None (csv_dir : string) (listing : list entry) :
  (run csv_dir listing).2 = None →
  ∀ f, f ∈ glob csv_dir listing →
       (∃ p, file_points f = Ok p) ∧ (∃ fig, active_inactive_chart f = Ok fig).
Proof.
  intros Hrun f Hf. unfold run in Hrun.
  destruct (first_pass (glob csv_dir listing)) as [fig|e] eqn:Hfirst; [|done].
  split.
  - apply file_points_has_columns.
    apply first_pass_Ok in Hfirst as (p & Hp & _).
    assert (Forall (has_columns combined_columns) (glob csv_dir listing)) as HF
      by (apply pool_loop_Ok_iff; eauto).
    rewrite Forall_forall in HF. by apply HF.
  - destruct (active_inactive_chart f) as [chart|e] eqn:Hchart; [by eexists|].
    assert (∃ e, (per_file_loop (glob csv_dir listing)
                    [(join csv_dir "mem_swap_vs_time.png", fig)]).2 = Some e)
      as [e' He'].
    { apply per_file_loop_Some, Exists_exists. exists f. eauto. }
    congruence.
Qed.

(** C7.  The run reads the seven columns of every input file: reading an
    absent column raises, no value standing in for it, so a run that
    completes found all seven in every file, and a run over a file that
    lacks one of them ends in an exception. *)
Theorem C7_required_columns (csv_dir : string) (listing : list entry) :
  (∀ (df : DataFrame) (c : string),
     df !! c = None → getitem df c = Raise (ColumnNotFoundError c))
  ∧ ((run csv_dir listing).2 = None →
     ∀ f, f ∈ glob csv_dir listing → has_columns required_columns f)
  ∧ (∀ f df c,
       f ∈ glob csv_dir listing → content f = Some (Numeric df) →
       c ∈ required_columns → df !! c = None →
       ∃ e, (run csv_dir listing).2 = Some e).
Proof.
  assert ((run csv_dir listing).2 = None →
          ∀ f, f ∈ glob csv_dir listing → has_columns required_columns f)
    as Hall.
  { intros Hrun f Hf. destruct (run_None _ _ Hrun f Hf) as [H1 H2].
    apply file_points_has_columns in H1 as (df & Hc & H1).
    apply active_inactive_chart_has_columns in H2 as (df' & Hc' & H2).
    assert (df' = df) as -> by congruence.
    exists df. split; [done|]. intros c Hin. unfold required_columns in Hin.
    apply elem_of_app in Hin as [Hin|Hin]; [by apply H1|].
    apply H2. by right. }
  split_and!.
  - apply getitem_absent.
  - exact Hall.
  - intros f df c Hf Hc Hin Hnone.
    destruct ((run csv_dir listing).2) as [e|] eqn:Hrun; [by eexists|].
    destruct (Hall eq_refl f Hf) as (df' & Hc' & Hcols).
    assert (df' = df) as -> by congruence.
    destruct (Hcols c Hin) as [x Hx]. congruence.
Qed.

Lemma C7_required_columns_witness :
  ∃ e, (run "." [Entry "log.csv"
                   (Some (Numeric (delete "inactive_file" (scenario_table 0 0 0 0))))]).2
       = Some e.
Proof.
  apply (proj2 (proj2 (C7_required_columns "."
           [Entry "log.csv"
              (Some (Numeric (delete "inactive_file" (scenario_table 0 0 0 0))))]))
           (CsvFile "./log.csv"
              (Some (Numeric (delete "inactive_file" (scenario_table 0 0 0 0)))))
           (delete "inactive_file" (scenario_table 0 0 0 0))
           "inactive_file").
  - vm_compute. left.
  - reflexivity.
  - unfold required_columns, combined_columns, active_inactive_columns.
    set_solver.
  - reflexivity.
Defined.

(** ** Partial output *)

Lemma strings_ext (columns1 columns2 : list string) (c : string) :
  (c ∈ columns1 ↔ c ∈ columns2) →
  to_numpy (Strings columns1) c = to_numpy (Strings columns2) c
  ∧ truediv_mb (Strings columns1) c = truediv_mb (Strings columns2) c.
Proof.
  intros H. simpl.
  destruct (decide (c ∈ columns1)), (decide (c ∈ columns2)); naive_solver.
Qed.

Lemma file_points_without_active_inactive (f : csv_file) :
  file_points (without_active_inactive f) = file_points f.
Proof.
  unfold file_points, without_active_inactive, read_csv.
  destruct (content f) as [[df|columns]|]; [| |done].
  - simpl. unfold getitem. by rewrite !lookup_delete_ne by done.
  - cbn [content fmap option_fmap option_map bind].
    assert (∀ c, c ∈ combined_columns →
              c ∈ filter (λ c, c ∉ active_inactive_columns) columns
              ↔ c ∈ columns) as Hin.
    { intros c Hc. rewrite list_elem_of_filter.
      unfold combined_columns in Hc. unfold active_inactive_columns.
      set_solver. }
    destruct (strings_ext
                (filter (λ c, c ∉ active_inactive_columns) columns)
                columns "timestamp") as [-> _];
      [apply Hin; unfold combined_columns; set_solver|].
    destruct (strings_ext
                (filter (λ c, c ∉ active_inactive_columns) columns)
                columns "current_memory_usage") as [_ ->];
      [apply Hin; unfold combined_columns; set_solver|].
    destruct (strings_ext
                (filter (λ c, c ∉ active_inactive_columns) columns)
                columns "current_swap_usage") as [_ ->];
      [apply Hin; unfold combined_columns; set_solver|].
    done.
Qed.

Lemma pool_loop_without_active_inactive (csv_files : list csv_file)
    (a b : points) :
  pool_loop (without_active_inactive <$> csv_files) a b
  = pool_loop csv_files a b.
Proof.
  revert a b. induction csv_files as [|f rest IH]; intros a b; simpl; [done|].
  rewrite file_points_without_active_inactive.
  destruct (file_points f) as [p|e]; simpl; [apply IH|done].
Qed.

(** C8.  The combined chart is saved before any per-file chart is attempted,
    and the four active/inactive columns are read by the per-file pass only:
    the first pass is the same without them, an exception for one of them
    finds [mem_swap_vs_time.png] already written, and when the first pass
    succeeds a file that lacks one of them ends the run in an exception with
    that image left behind. *)
Theorem C8_partial_output (csv_dir : string) (listing : list entry) :
  first_pass (without_active_inactive <$> glob csv_dir listing)
  = first_pass (glob csv_dir listing)
  ∧ (∀ c, c ∈ active_inactive_columns →
          (run csv_dir listing).2 = Some (ColumnNotFoundError c) →
          ∃ fig more,
            first_pass (glob csv_dir listing) = Ok fig
            ∧ (run csv_dir listing).1
              = (join csv_dir "mem_swap_vs_time.png", fig) :: more)
  ∧ (∀ fig f df c,
       first_pass (glob csv_dir listing) = Ok fig →
       f ∈ glob csv_dir listing → content f = Some (Numeric df) →
       c ∈ active_inactive_columns → df !! c = None →
       ∃ e more,
         run csv_dir listing
         = ((join csv_dir "mem_swap_vs_time.png", fig) :: more, Some e)).
Proof.
  split_and!.
  - unfold first_pass. by rewrite pool_loop_without_active_inactive.
  - intros c Hc Hrun.
    destruct (first_pass (glob csv_dir listing)) as [fig|e] eqn:Hfirst.
    + destruct (run_keeps_combined _ _ _ Hfirst) as [more Hmore]. eauto.
    + rewrite (run_first_pass_Raise _ _ e Hfirst) in Hrun.
      injection Hrun as ->.
      apply first_pass_Raise in Hfirst as [Hpool|(p & _ & ? & _)]; [|done].
      apply pool_loop_error in Hpool as (f & _ & Hf).
      apply file_points_error in Hf as [[_ ?]|(fr & _ & Hfail)]; [done|].
      apply column_failure_column in Hfail as Hc'.
      unfold combined_columns in Hc'.
      unfold active_inactive_columns in Hc. set_unfold.
      destruct Hc as [->|[->|[->|[->|[]]]]];
        by destruct Hc' as [?|[?|[?|[]]]].
  - intros fig f df c Hfirst Hf Hcontent Hc Hnone.
    destruct (run_keeps_combined _ _ _ Hfirst) as [more Hmore].
    assert (∃ e, (run csv_dir listing).2 = Some e) as [e He].
    { rewrite (run_first_pass_Ok _ _ fig Hfirst).
      apply per_file_loop_Some, Exists_exists. exists f. split; [done|].
      destruct (active_inactive_chart f) as [chart|e] eqn:Hchart; [|by eexists].
      assert (has_columns ("timestamp" :: active_inactive_columns) f)
        as (df' & Hcontent' & Hcols)
        by (apply active_inactive_chart_has_columns; eauto).
      assert (df' = df) as -> by congruence.
      destruct (Hcols c) as [x Hx]; [by right|congruence]. }
    exists e, more. destruct (run csv_dir listing) as [w o]. simpl in *.
    by subst.
Qed.

Lemma C8_partial_output_witness :
  ∃ fig e more,
    run "." [Entry "log.csv"
               (Some (Numeric (delete "inactive_file" (scenario_table 0 0 0 0))))]
    = ((join "." "mem_swap_vs_time.png", fig) :: more, Some e).
Proof.
  destruct (first_pass
              (glob "." [Entry "log.csv"
                 (Some (Numeric (delete "inactive_file" (scenario_table 0 0 0 0))))]))
    as [fig|e] eqn:Hfirst; [|vm_compute in Hfirst; discriminate].
  exists fig.
  apply (proj2 (proj2 (C8_partial_output "."
           [Entry "log.csv"
              (Some (Numeric (delete "inactive_file" (scenario_table 0 0 0 0))))]))
           fig
           (CsvFile "./log.csv"
              (Some (Numeric (delete "inactive_file" (scenario_table 0 0 0 0)))))
           (delete "inactive_file" (scenario_table 0 0 0 0))
           "inactive_file").
  - exact Hfirst.
  - vm_compute. left.
  - reflexivity.
  - unfold active_inactive_columns. set_solver.
  - reflexivity.
Defined.

(** * Further properties of the script *)

(** ** Exceptions *)






(** X4.  The second pass writes the images of the files that precede the
    first one it cannot chart, then stops: the images already written stay,
    the files after the failing one get none. *)
Theorem X4_images_before_failure (fs1 fs2 : list csv_file) (f : csv_file)
    (charts : list figure) (e : error) (written : list (string * figure)) :
  Forall2 (λ g chart, active_inactive_chart g = Ok chart) fs1 charts →
  active_inactive_chart f = Raise e →
  per_file_loop (fs1 ++ f :: fs2) written
  = (written ++ zip (img_file ∘ path <$> fs1) charts, Some e).
Proof.
  intros Hfs1 Hf. revert written.
  induction Hfs1 as [|g chart fs1 charts Hg _ IH]; intros written; simpl.
  - by rewrite Hf, app_nil_r.
  - rewrite Hg, IH. by rewrite <-(assoc_L (++)).
Qed.

Lemma X4_images_before_failure_witness :
  ∃ chart,
    per_file_loop
      [CsvFile "logs/a.csv" (Some (Numeric (scenario_table 0 0 0 0)));
       CsvFile "logs/b.csv" (Some (Numeric (delete "active_file" (scenario_table 0 0 0 0))));
       CsvFile "logs/c.csv" (Some (Numeric (scenario_table 0 0 0 0)))] []
    = ([] ++ zip (img_file ∘ path
                    <$> [CsvFile "logs/a.csv" (Some (Numeric (scenario_table 0 0 0 0)))])
               [chart],
       Some (ColumnNotFoundError "active_file")).
Proof.
  eexists.
  apply (X4_images_before_failure
           [CsvFile "logs/a.csv" (Some (Numeric (scenario_table 0 0 0 0)))]
           [CsvFile "logs/c.csv" (Some (Numeric (scenario_table 0 0 0 0)))]
           (CsvFile "logs/b.csv"
              (Some (Numeric (delete "active_file" (scenario_table 0 0 0 0)))))).
  - constructor; [|constructor]. vm_compute. reflexivity.
  - reflexivity.
Defined.

(** ** Names of files *)

Lemma substring_app_r (s t : string) (n m : nat) :
  substring (String.length s + n) m (s +:+ t) = substring n m t.
Proof. induction s as [|a s IH]; [done|]. rewrite app_cons_str. apply IH. Qed.

Lemma endswith_app (suffix s t : string) :
  (String.length suffix ≤ String.length t)%nat →
  endswith suffix (s +:+ t) = endswith suffix t.
Proof.
  intros Hlen. unfold endswith. rewrite length_app_str.
  replace (String.length s + String.length t - String.length suffix)%nat
    with (String.length s + (String.length t - String.length suffix))%nat
    by lia.
  rewrite substring_app_r. f_equal.
  destruct (Nat.leb_spec (String.length suffix) (String.length t)); [|lia].
  by destruct (Nat.leb_spec (String.length suffix)
                 (String.length s + String.length t)); [|lia].
Qed.

Lemma image_not_matched (stem : string) :
  matches_csv (stem +:+ "_active_inactive.png") = false.
Proof.
  unfold matches_csv. rewrite endswith_app by (simpl; lia).
  apply andb_false_r.
Qed.

Lemma glob_app (csv_dir : string) (l1 l2 : list entry) :
  glob csv_dir (l1 ++ l2) = glob csv_dir l1 ++ glob csv_dir l2.
Proof. unfold glob. by rewrite filter_app, fmap_app. Qed.

(** X5.  [glob] keeps the entries whose name ends in [.csv] and does not
    start with a dot.  The images the script writes are not among them, and
    an entry that is not matched, wherever it stands in the directory, does
    not change the outcome: a second run over a directory that now holds the
    images of the first reads the same files. *)
Theorem X5_other_entries_ignored (csv_dir : string)
    (before after : list entry) (e : entry) :
  matches_csv (name e) = false →
  run csv_dir (before ++ e :: after) = run csv_dir (before ++ after)
  ∧ matches_csv "mem_swap_vs_time.png" = false
  ∧ (∀ stem, matches_csv (stem +:+ "_active_inactive.png") = false).
Proof.
  intros He. split_and!; [|done|apply image_not_matched].
  assert (glob csv_dir (before ++ e :: after) = glob csv_dir (before ++ after))
    as Hglob.
  { rewrite !glob_app. f_equal. unfold glob.
    rewrite filter_cons, decide_False; [done|]. by rewrite He. }
  unfold run. by rewrite Hglob.
Qed.

Lemma X5_other_entries_ignored_witness :
  run "logs" ([Entry "a.csv" (Some (Numeric (scenario_table 0 0 0 0)))]
              ++ Entry "a_active_inactive.png" None
                   :: [Entry "b.csv" (Some (Numeric (scenario_table 1 1 1 1)))])
  = run "logs" ([Entry "a.csv" (Some (Numeric (scenario_table 0 0 0 0)))]
                ++ [Entry "b.csv" (Some (Numeric (scenario_table 1 1 1 1)))])
  ∧ matches_csv "mem_swap_vs_time.png" = false
  ∧ (∀ stem, matches_csv (stem +:+ "_active_inactive.png") = false).
Proof.
  apply (X5_other_entries_ignored "logs"
           [Entry "a.csv" (Some (Numeric (scenario_table 0 0 0 0)))]
           [Entry "b.csv" (Some (Numeric (scenario_table 1 1 1 1)))]
           (Entry "a_active_inactive.png" None)).
  reflexivity.
Defined.

(** The paths of a run that completes: what it read and what it wrote. *)
Lemma run_completed_paths (csv_dir : string) (listing : list entry)
    (written : list (string * figure)) :
  (∀ e, e ∈ listing → contains sep (name e) = false) →
  run csv_dir listing = (written, None) →
  ∃ stems,
    name <$> filter (λ e, matches_csv (name e) = true) listing
    = (λ s, s +:+ ".csv") <$> stems
    ∧ path <$> glob csv_dir listing
      = (λ s, join csv_dir (s +:+ ".csv")) <$> stems
    ∧ written.*1
      = join csv_dir "mem_swap_vs_time.png"
          :: ((λ s, join csv_dir (s +:+ "_active_inactive.png")) <$> stems)
    ∧ Forall (λ s, ∀ suffix, startswith_sep (s +:+ suffix) = false) stems.
Proof.
  intros Hsep Hrun.
  destruct (first_pass (glob csv_dir listing)) as [fig|e] eqn:Hfirst;
    [|by rewrite (run_first_pass_Raise _ _ e) in Hrun].
  rewrite (run_first_pass_Ok _ _ fig) in Hrun by done.
  apply per_file_loop_None in Hrun as (charts & HF & ->).
  destruct (glob_stems csv_dir listing Hsep) as (stems & Hnames & Himg & Hrel).
  exists stems. split_and!; try done.
  - by rewrite glob_paths, Hnames, <-list_fmap_compose.
  - simpl. f_equal. rewrite <-Himg. apply fst_zip.
    apply Forall2_length in HF. rewrite length_fmap. lia.
Qed.

(** X6.  A run that completes over a directory of distinct names has
    written pairwise distinct files, none of which is one of the CSV files
    it read: no image overwrites another, the combined chart or an input. *)
Theorem X6_written_files_distinct (csv_dir : string) (listing : list entry)
    (written : list (string * figure)) :
  (∀ e, e ∈ listing → contains sep (name e) = false) →
  NoDup (name <$> listing) →
  run csv_dir listing = (written, None) →
  NoDup written.*1
  ∧ (∀ f, f ∈ glob csv_dir listing → path f ∉ written.*1).
Proof.
  intros Hsep Hnd Hrun.
  destruct (run_completed_paths _ _ _ Hsep Hrun)
    as (stems & Hnames & Hpaths & -> & Hrel).
  rewrite Forall_forall in Hrel.
  assert (∀ s, s ∈ stems →
               join csv_dir "mem_swap_vs_time.png"
               ≠ join csv_dir (s +:+ "_active_inactive.png")) as Hpng.
  { intros s Hs. rewrite (join_relative _ "mem_swap_vs_time.png") by done.
    rewrite (join_relative _ (s +:+ _)) by (by apply Hrel).
    intros H%String.app_inj. apply (f_equal String.length) in H.
    rewrite length_app_str in H. simpl in H.
    destruct s as [|c s]; [by specialize (Hrel "" Hs "/")|].
    simpl in H. lia. }
  assert (∀ s1 s2 t, s1 ∈ stems →
            (String.length ".csv" ≤ String.length t)%nat →
            endswith ".csv" t = false →
            join csv_dir (s1 +:+ ".csv") ≠ join csv_dir (s2 +:+ t)
            ∨ startswith_sep (s2 +:+ t) = true) as Hcsv.
  { intros s1 s2 t Hs1 Hlen Ht.
    destruct (startswith_sep (s2 +:+ t)) eqn:Hrel2; [by right|left].
    rewrite (join_relative _ (s1 +:+ _)) by (by apply Hrel).
    rewrite (join_relative _ (s2 +:+ _)) by done.
    intros H%String.app_inj. apply (f_equal (endswith ".csv")) in H.
    rewrite !endswith_app in H by (done || simpl; lia).
    rewrite Ht in H. discriminate. }
  split.
  - apply NoDup_cons. split.
    + intros (s & Heq & Hs)%list_elem_of_fmap. by apply (Hpng s).
    + assert (NoDup stems) as Hst.
      { apply (NoDup_fmap_1 (λ s, s +:+ ".csv")). rewrite <-Hnames.
        eapply sublist_NoDup; [exact Hnd|].
        apply fmap_sublist, sublist_filter. }
      apply NoDup_fmap_2_strong; [|done].
      intros s1 s2 Hs1 Hs2. apply join_relative_inj; by apply Hrel.
  - intros f Hf Hin.
    assert (path f ∈ path <$> glob csv_dir listing) as Hpath
      by (apply list_elem_of_fmap; eauto).
    rewrite Hpaths in Hpath.
    apply list_elem_of_fmap in Hpath as (s1 & Hp1 & Hs1).
    rewrite Hp1 in Hin. apply elem_of_cons in Hin as [Hin|Hin].
    + destruct (Hcsv s1 "" "mem_swap_vs_time.png" Hs1) as [H|H];
        [simpl; lia|done|by apply H|done].
    + apply list_elem_of_fmap in Hin as (s2 & Heq & Hs2).
      destruct (Hcsv s1 s2 "_active_inactive.png" Hs1) as [H|H];
        [simpl; lia|done|by apply H|].
      by rewrite (Hrel s2 Hs2) in H.
Qed.

Lemma X6_written_files_distinct_witness :
  NoDup ((run "logs" example_listing).1).*1
  ∧ (∀ f, f ∈ glob "logs" example_listing →
          path f ∉ ((run "logs" example_listing).1).*1).
Proof.
  apply (X6_written_files_distinct "logs" example_listing).
  - intros e He. unfold example_listing in He. set_unfold in He.
    by destruct He as [->|[->|[->|[]]]].
  - vm_compute. repeat constructor; set_solver.
  - vm_compute. reflexivity.
Defined.

Lemma contains_startswith_sep (n : string) :
  contains sep n = false → startswith_sep n = false.
Proof. destruct n as [|a n]; [done|]. simpl. by intros [? _]%orb_false_iff. Qed.

Lemma substring_0_length (s : string) : substring 0 (String.length s) s = s.
Proof. rewrite <-(app_nil_r_str s) at 2. apply substring_0_app. Qed.

Lemma basename_join (csv_dir n : string) :
  contains sep n = false → basename (join csv_dir n) = n.
Proof.
  intros Hn. rewrite join_relative by (by apply contains_startswith_sep).
  unfold basename. rewrite rfind_app_absent by done.
  assert (rfind sep (join csv_dir "")
          = (Z.of_nat (String.length (join csv_dir "")) - 1)%Z) as ->.
  { destruct (join_empty_cases csv_dir) as [->|[d ->]]; [done|].
    rewrite rfind_app_found; change (rfind sep "/") with 0%Z; [|done].
    rewrite length_app_str. simpl String.length. lia. }
  unfold drop_str.
  replace (Z.to_nat (Z.of_nat (String.length (join csv_dir "")) - 1 + 1))
    with (String.length (join csv_dir "") + 0)%nat by lia.
  rewrite substring_app_r, length_app_str.
  replace (String.length (join csv_dir "") + String.length n
           - (String.length (join csv_dir "") + 0))%nat
    with (String.length n) by lia.
  apply substring_0_length.
Qed.

(** X7.  The title of a file's chart names the file, without its
    directory. *)
Theorem X7_chart_title (csv_dir : string) (e : entry) (chart : figure) :
  contains sep (name e) = false →
  active_inactive_chart (CsvFile (join csv_dir (name e)) (table e)) = Ok chart →
  title chart = "Listes actives/inactives (" +:+ name e +:+ ")".
Proof.
  intros Hsep (df & ts & aa & ia & af & il & _ & _ & _ & _ & _ & _ & ->)
    %active_inactive_chart_inv.
  simpl. by rewrite basename_join.
Qed.

Lemma X7_chart_title_witness :
  ∃ chart,
    active_inactive_chart
      (CsvFile (join "logs" "a.csv") (Some (Numeric (scenario_table 0 0 0 0))))
    = Ok chart
    ∧ title chart = "Listes actives/inactives (a.csv)".
Proof.
  eexists. split; [vm_compute; reflexivity|].
  apply (X7_chart_title "logs" (Entry "a.csv" (Some (Numeric (scenario_table 0 0 0 0))))).
  - reflexivity.
  - vm_compute. reflexivity.
Defined.

Lemma endswith_sep_app_sep (d : string) : endswith_sep (d +:+ "/") = true.
Proof.
  induction d as [|a d IH]; [done|]. rewrite app_cons_str. simpl.
  destruct (d +:+ "/") eqn:Hd; [by destruct d|done].
Qed.

Lemma join_trailing_sep (d b : string) :
  d ≠ "" → endswith_sep d = false → join (d +:+ "/") b = join d b.
Proof.
  intros Hd Hend. unfold join. destruct (startswith_sep b); [done|].
  rewrite endswith_sep_app_sep, orb_true_r, Hend.
  apply String.eqb_neq in Hd. rewrite Hd. simpl. apply app_assoc_str.
Qed.

(** X8.  A slash at the end of the directory argument changes nothing:
    the same files are read and the same images written at the same
    paths. *)
Theorem X8_trailing_slash (csv_dir : string) (listing : list entry) :
  csv_dir ≠ "" → endswith_sep csv_dir = false →
  run (csv_dir +:+ "/") listing = run csv_dir listing.
Proof.
  intros Hd Hend.
  assert (glob (csv_dir +:+ "/") listing = glob csv_dir listing) as Hglob.
  { unfold glob. apply list_fmap_ext. intros _ e _.
    by rewrite join_trailing_sep. }
  unfold run. by rewrite Hglob, join_trailing_sep.
Qed.

Lemma X8_trailing_slash_witness :
  run ("logs" +:+ "/") example_listing = run "logs" example_listing.
Proof. apply (X8_trailing_slash "logs" example_listing); done. Defined.

(** ** Means *)

Lemma mean_Ok (l : list Qc) (v : Qc) :
  mean l = Ok v ↔ l ≠ [] ∧ v = foldr Qcplus 0 l / num (Z.of_nat (length l)).
Proof.
  split.
  - intros H. assert (l ≠ []) as Hl by (by destruct l).
    rewrite (mean_nonempty l Hl) in H. by injection H as <-.
  - intros [Hl ->]. by rewrite (mean_nonempty l Hl).
Qed.

Lemma foldr_Qcplus_div_mb (l : list Qc) :
  foldr Qcplus 0 (div_mb l) = to_mb (foldr Qcplus 0 l).
Proof.
  induction l as [|x l IH]; simpl.
  - unfold to_mb, Qcdiv. ring.
  - rewrite IH. unfold to_mb, Qcdiv. ring.
Qed.

(** X9.  The unit conversion commutes with the mean: the mean of the
    converted values of a group is the converted mean of its byte values,
    so converting before the aggregation, as the script does, gives the
    same curve as converting after it. *)
Theorem X9_mean_of_converted (l : list Qc) (v : Qc) :
  mean l = Ok v → mean (div_mb l) = Ok (to_mb v).
Proof.
  intros [Hl ->]%mean_Ok. apply mean_Ok. split.
  - by destruct l.
  - rewrite foldr_Qcplus_div_mb. unfold div_mb. rewrite length_fmap.
    unfold to_mb, Qcdiv. ring.
Qed.

Lemma X9_mean_of_converted_witness :
  mean (div_mb [num 1048576; num 3145728]) = Ok (to_mb (num 2097152)).
Proof.
  apply (X9_mean_of_converted [num 1048576; num 3145728] (num 2097152)).
  vm_compute. f_equal. apply Qc_is_canon. reflexivity.
Defined.

Lemma num_Qc_of_Z (z : Z) : num z = Qc_of_Z z.
Proof. apply Qc_is_canon. simpl. apply Qred_correct. Qed.

Lemma num_succ (n : nat) : num (Z.of_nat (S n)) = 1 + num (Z.of_nat n).
Proof.
  rewrite Nat2Z.inj_succ, <-Z.add_1_l, !num_Qc_of_Z.
  by rewrite Z2Qc_inj_add, Z2Qc_inj_1.
Qed.

Lemma num_pos (n : nat) : 0 < num (Z.of_nat (S n)).
Proof.
  rewrite num_Qc_of_Z, <-Z2Qc_inj_0.
  apply (proj1 (Z2Qc_inj_lt 0 (Z.of_nat (S n)))). lia.
Qed.

Lemma foldr_Qcplus_bounds (l : list Qc) (lo hi : Qc) :
  Forall (λ x, lo ≤ x ∧ x ≤ hi) l →
  num (Z.of_nat (length l)) * lo ≤ foldr Qcplus 0 l
  ∧ foldr Qcplus 0 l ≤ num (Z.of_nat (length l)) * hi.
Proof.
  induction 1 as [|x l [Hlo Hhi] _ [IHlo IHhi]].
  - simpl. change (num 0) with (Q2Qc 0). by rewrite !Qcmult_0_l.
  - simpl length. rewrite num_succ. simpl foldr.
    replace ((1 + num (Z.of_nat (length l))) * lo)
      with (lo + num (Z.of_nat (length l)) * lo) by ring.
    replace ((1 + num (Z.of_nat (length l))) * hi)
      with (hi + num (Z.of_nat (length l)) * hi) by ring.
    split; by apply Qcplus_le_compat.
Qed.

Lemma mean_within_range (l : list Qc) (lo hi v : Qc) :
  mean l = Ok v →
  Forall (λ x, lo ≤ x ∧ x ≤ hi) l →
  lo ≤ v ∧ v ≤ hi.
Proof.
  intros [Hl ->]%mean_Ok [Hlo Hhi]%foldr_Qcplus_bounds.
  destruct l as [|x l]; [done|].
  pose proof (num_pos (length l)) as Hpos.
  assert (num (Z.of_nat (length (x :: l))) ≠ 0) as Hne.
  { intros Heq. simpl length in Heq. rewrite Heq in Hpos.
    by apply Qclt_not_eq in Hpos. }
  split.
  - apply (Qcmult_le_mono_pos_l _ _ (num (Z.of_nat (length (x :: l)))));
      [done|].
    by rewrite Qcmult_div_r.
  - apply (Qcmult_le_mono_pos_l _ _ (num (Z.of_nat (length (x :: l)))));
      [done|].
    by rewrite Qcmult_div_r.
Qed.

(** X10.  The mean curve stays within the range of the samples: every
    value of a mean series lies between any lower and upper bound of the
    values of the samples (so the curve of non-negative usages is
    non-negative). *)
Theorem X10_mean_within_range (pts : points) (line : list Qc * list Qc)
    (lo hi : Qc) :
  mean_series pts = Ok line →
  Forall (λ p, lo ≤ p.2 ∧ p.2 ≤ hi) pts →
  Forall (λ y, lo ≤ y ∧ y ≤ hi) line.2.
Proof.
  rewrite mean_series_eq. intros [= <-] Hpts. simpl.
  apply Forall_fmap, Forall_forall. intros t Ht. simpl.
  apply (mean_within_range (samples_at t pts)).
  - apply mean_nonempty, samples_at_nonempty.
    by apply elem_of_keys_group, elem_of_sorted.
  - unfold samples_at. apply Forall_fmap.
    apply Forall_forall. intros p Hp%list_elem_of_filter.
    rewrite Forall_forall in Hpts. apply Hpts, Hp.
Qed.

Lemma X10_mean_within_range_witness :
  ∃ line,
    mean_series [(num 0, num 1); (num 0, num 3); (num 1, num 2)] = Ok line
    ∧ Forall (λ y, num 1 ≤ y ∧ y ≤ num 3) line.2.
Proof.
  eexists. split; [vm_compute; reflexivity|].
  apply (X10_mean_within_range
           [(num 0, num 1); (num 0, num 3); (num 1, num 2)]).
  - vm_compute. reflexivity.
  - repeat constructor; by vm_compute.
Defined.

(** ** The dictionary of groups *)

(** X11.  After the grouping loop the dictionary maps each timestamp of the
    samples to the values of the samples at that timestamp, in the order
    they were pooled, and has no other key: no group is empty. *)
Theorem X11_group_lookup (pts : points) (t : Qc) :
  group_by_timestamp pts !! t
  = (if decide (t ∈ pts.*1) then Some (samples_at t pts) else None)
  ∧ group_by_timestamp pts !! t ≠ Some [].
Proof.
  assert (group_by_timestamp pts !! t
          = if decide (t ∈ pts.*1) then Some (samples_at t pts) else None)
    as Hlookup.
  { pose proof (lookup_group pts t) as Hdef.
    destruct (decide (t ∈ pts.*1)) as [Hin|Hin].
    - assert (is_Some (group_by_timestamp pts !! t)) as [l Hl].
      { apply elem_of_dom. rewrite dom_group. set_solver. }
      rewrite Hl in Hdef |- *. simpl in Hdef. by rewrite Hdef.
    - apply not_elem_of_dom. rewrite dom_group. set_solver. }
  split; [done|]. rewrite Hlookup.
  destruct (decide (t ∈ pts.*1)) as [Hin|Hin]; [|done].
  apply samples_at_nonempty in Hin. congruence.
Qed.

Lemma elem_of_zip_fmap {A B} (f : A → B) (l : list A) (x : A) (y : B) :
  (x, y) ∈ zip l (f <$> l) ↔ x ∈ l ∧ y = f x.
Proof.
  induction l as [|a l IH]; simpl.
  - split; [by intros ?%elem_of_nil|by intros [?%elem_of_nil _]].
  - rewrite !elem_of_cons, IH. naive_solver.
Qed.

Lemma samples_at_unique (pts : points) (t y : Qc) :
  NoDup pts.*1 → (t, y) ∈ pts → samples_at t pts = [y].
Proof.
  induction pts as [|p pts IH]; simpl; [by intros _ ?%elem_of_nil|].
  intros [Hp Hnd]%NoDup_cons. rewrite samples_at_cons, elem_of_cons.
  intros [<-|Hin]; simpl.
  - rewrite decide_True by done. simpl in Hp.
    destruct (samples_at t pts) eqn:Hs; [done|].
    destruct Hp. apply samples_at_nonempty. by rewrite Hs.
  - rewrite decide_False, (IH Hnd Hin); [done|].
    intros Heq. apply Hp. rewrite Heq.
    apply list_elem_of_fmap. by exists (t, y).
Qed.

Lemma arithmetic_mean_singleton (y : Qc) : arithmetic_mean [y] = y.
Proof.
  unfold arithmetic_mean.
  change (foldr Qcplus 0 [y]) with (y + 0).
  change (num (Z.of_nat (length [y]))) with (num 1).
  assert (num 1 = 1) as -> by (apply Qc_is_canon; reflexivity).
  by rewrite Qcplus_0_r, (right_id 1 Qcdiv).
Qed.

(** X12.  When no two samples share a timestamp (one file of distinct
    timestamps, say), the mean curve passes through the samples and through
    nothing else. *)
Theorem X12_one_sample_per_timestamp (pts : points)
    (line : list Qc * list Qc) (t y : Qc) :
  NoDup pts.*1 →
  mean_series pts = Ok line →
  (t, y) ∈ zip line.1 line.2 ↔ (t, y) ∈ pts.
Proof.
  intros Hnd. rewrite mean_series_eq. intros [= <-]. simpl.
  rewrite elem_of_zip_fmap, elem_of_sorted, elem_of_keys_group. split.
  - intros [(p & -> & Hp)%list_elem_of_fmap ->]. destruct p as [t y'].
    simpl. by rewrite (samples_at_unique pts t y'), arithmetic_mean_singleton.
  - intros Hin. split; [apply list_elem_of_fmap; by exists (t, y)|].
    by rewrite (samples_at_unique pts t y), arithmetic_mean_singleton.
Qed.

Lemma X12_one_sample_per_timestamp_witness :
  ∃ line,
    mean_series [(num 1, num 5); (num 0, num 7)] = Ok line
    ∧ ((num 1, num 5) ∈ zip line.1 line.2
       ↔ (num 1, num 5) ∈ [(num 1, num 5); (num 0, num 7)]).
Proof.
  eexists. split; [vm_compute; reflexivity|].
  apply (X12_one_sample_per_timestamp [(num 1, num 5); (num 0, num 7)]).
  - simpl. repeat constructor; set_solver.
  - vm_compute. reflexivity.
Defined.

Lemma samples_at_app (t : Qc) (pts1 pts2 : points) :
  samples_at t (pts1 ++ pts2) = samples_at t pts1 ++ samples_at t pts2.
Proof. unfold samples_at. by rewrite filter_app, fmap_app. Qed.

(** X13.  The mean at a timestamp depends on the samples at that timestamp
    only: pooling further samples, none at [t], leaves the point of the
    curve at [t] as it was. *)
Theorem X13_mean_is_local (pts extra : points)
    (line line' : list Qc * list Qc) (t v : Qc) :
  mean_series pts = Ok line →
  mean_series (pts ++ extra) = Ok line' →
  t ∉ extra.*1 →
  (t, v) ∈ zip line.1 line.2 ↔ (t, v) ∈ zip line'.1 line'.2.
Proof.
  rewrite !mean_series_eq. intros [= <-] [= <-] Ht. simpl.
  rewrite !elem_of_zip_fmap, !elem_of_sorted, !elem_of_keys_group.
  rewrite samples_at_app, fmap_app, elem_of_app.
  assert (samples_at t extra = []) as ->.
  { destruct (samples_at t extra) eqn:Hs; [done|].
    destruct Ht. apply samples_at_nonempty. by rewrite Hs. }
  rewrite app_nil_r. tauto.
Qed.

Lemma X13_mean_is_local_witness :
  ∃ line line',
    mean_series [(num 0, num 1); (num 0, num 3)] = Ok line
    ∧ mean_series ([(num 0, num 1); (num 0, num 3)] ++ [(num 1, num 9)])
      = Ok line'
    ∧ ((num 0, num 2) ∈ zip line.1 line.2
       ↔ (num 0, num 2) ∈ zip line'.1 line'.2).
Proof.
  do 2 eexists. split; [vm_compute; reflexivity|].
  split; [vm_compute; reflexivity|].
  apply (X13_mean_is_local [(num 0, num 1); (num 0, num 3)] [(num 1, num 9)]).
  - vm_compute. reflexivity.
  - vm_compute. reflexivity.
  - simpl. intros [H|H]%elem_of_cons; [|by apply elem_of_nil in H].
    by apply (f_equal this) in H.
Defined.

(** ** What the combined chart shows *)

Lemma file_points_columns (f : csv_file) (p : points * points) :
  (∀ df, content f = Some (Numeric df) → rectangular df) →
  file_points f = Ok p →
  (p.1).*1 = column "timestamp" f
  ∧ (p.1).*2 = div_mb (column "current_memory_usage" f)
  ∧ (p.2).*1 = column "timestamp" f
  ∧ (p.2).*2 = div_mb (column "current_swap_usage" f).
Proof.
  intros Hrect (df & ts & m & sw & Hc & Hts & Hm & Hsw & ->)%file_points_inv.
  unfold column. rewrite Hc, Hts, Hm, Hsw. simpl.
  pose proof (Hrect df Hc _ _ _ _ Hts Hm) as Hlen1.
  pose proof (Hrect df Hc _ _ _ _ Hts Hsw) as Hlen2.
  split_and!; (apply fst_zip || apply snd_zip);
    unfold div_mb; rewrite length_fmap; lia.
Qed.

Lemma pool_loop_columns (csv_files : list csv_file) (p : points * points) :
  (∀ f df, f ∈ csv_files → content f = Some (Numeric df) → rectangular df) →
  pool_loop csv_files [] [] = Ok p →
  (p.1).*1 = concat (column "timestamp" <$> csv_files)
  ∧ (p.1).*2
    = concat (div_mb ∘ column "current_memory_usage" <$> csv_files)
  ∧ (p.2).*1 = concat (column "timestamp" <$> csv_files)
  ∧ (p.2).*2
    = concat (div_mb ∘ column "current_swap_usage" <$> csv_files).
Proof.
  revert p. induction csv_files as [|f rest IH]; intros p Hrect.
  - by intros [= <-].
  - rewrite pool_loop_cons. intros H.
    apply bind_Ok in H as (pf & Hf & H). apply bind_Ok in H as (q & Hq & H).
    injection H as <-. simpl.
    destruct (file_points_columns f pf) as (H1 & H2 & H3 & H4); [|done|].
    { intros df. apply Hrect. by left. }
    destruct (IH q) as (I1 & I2 & I3 & I4); [|done|].
    { intros f' df Hin. apply Hrect. by right. }
    rewrite !fmap_app, H1, H2, H3, H4, I1, I2, I3, I4. done.
Qed.

(** X14.  The scatter plots show every row of every file, in the order the
    files were enumerated: the timestamps of the files one after the other,
    against their converted memory values on one axis and their converted
    swap values on the other.  No row is dropped or reordered. *)
Theorem X14_scatter_shows_every_row (csv_files : list csv_file)
    (fig : figure) :
  (∀ f df, f ∈ csv_files → content f = Some (Numeric df) → rectangular df) →
  first_pass csv_files = Ok fig →
  mem_scatter fig
  = (concat (column "timestamp" <$> csv_files),
     concat (div_mb ∘ column "current_memory_usage" <$> csv_files))
  ∧ swap_scatter fig
    = (concat (column "timestamp" <$> csv_files),
       concat (div_mb ∘ column "current_swap_usage" <$> csv_files)).
Proof.
  intros Hrect (p & Hp & _ & _ & -> & _)%first_pass_Ok. simpl.
  destruct (pool_loop_columns csv_files p Hrect Hp) as (-> & -> & -> & ->).
  done.
Qed.

Lemma scenario_table_rectangular (aa ia af il : Qc) :
  rectangular (scenario_table aa ia af il).
Proof.
  assert (∀ (c : string) (s : Series),
            scenario_table aa ia af il !! c = Some s → length s = 2%nat)
    as Hall.
  { intros c s H. unfold scenario_table in H. simpl in H.
    repeat (rewrite lookup_insert in H; case_decide; [by injection H as <-|]).
    by rewrite lookup_empty in H. }
  intros c1 c2 s1 s2 H1 H2. by rewrite (Hall _ _ H1), (Hall _ _ H2).
Qed.

Lemma X14_scatter_shows_every_row_witness :
  ∃ fig,
    first_pass [CsvFile "a.csv" (Some (Numeric (scenario_table 0 0 0 0)));
                CsvFile "b.csv" (Some (Numeric (scenario_table 1 1 1 1)))] = Ok fig
    ∧ mem_scatter fig
      = (concat (column "timestamp"
                   <$> [CsvFile "a.csv" (Some (Numeric (scenario_table 0 0 0 0)));
                        CsvFile "b.csv" (Some (Numeric (scenario_table 1 1 1 1)))]),
         concat (div_mb ∘ column "current_memory_usage"
                   <$> [CsvFile "a.csv" (Some (Numeric (scenario_table 0 0 0 0)));
                        CsvFile "b.csv" (Some (Numeric (scenario_table 1 1 1 1)))]))
    ∧ swap_scatter fig
      = (concat (column "timestamp"
                   <$> [CsvFile "a.csv" (Some (Numeric (scenario_table 0 0 0 0)));
                        CsvFile "b.csv" (Some (Numeric (scenario_table 1 1 1 1)))]),
         concat (div_mb ∘ column "current_swap_usage"
                   <$> [CsvFile "a.csv" (Some (Numeric (scenario_table 0 0 0 0)));
                        CsvFile "b.csv" (Some (Numeric (scenario_table 1 1 1 1)))])).
Proof.
  destruct (first_pass
              [CsvFile "a.csv" (Some (Numeric (scenario_table 0 0 0 0)));
               CsvFile "b.csv" (Some (Numeric (scenario_table 1 1 1 1)))])
    as [fig|e] eqn:Hfirst; [|vm_compute in Hfirst; discriminate].
  exists fig. split; [done|].
  apply (X14_scatter_shows_every_row
           [CsvFile "a.csv" (Some (Numeric (scenario_table 0 0 0 0)));
            CsvFile "b.csv" (Some (Numeric (scenario_table 1 1 1 1)))] fig);
    [|exact Hfirst].
  intros f df Hin Hc. set_unfold in Hin.
  destruct Hin as [->|[->|[]]]; simpl in Hc; injection Hc as <-;
    apply scenario_table_rectangular.
Defined.

Lemma elem_of_concat {A} (x : A) (ls : list (list A)) :
  x ∈ concat ls ↔ ∃ l, x ∈ l ∧ l ∈ ls.
Proof.
  induction ls as [|l ls IH]; simpl.
  - split; [by intros ?%elem_of_nil|by intros (? & _ & ?%elem_of_nil)].
  - rewrite elem_of_app, IH. setoid_rewrite elem_of_cons. naive_solver.
Qed.

(** X15.  The memory curve and the swap curve have the same x-values: the
    distinct timestamps of the files, in ascending order. *)
Theorem X15_curves_share_timestamps (csv_files : list csv_file)
    (fig : figure) :
  (∀ f df, f ∈ csv_files → content f = Some (Numeric df) → rectangular df) →
  first_pass csv_files = Ok fig →
  (mem_line fig).1 = (swap_line fig).1
  ∧ (∀ t, t ∈ (mem_line fig).1
          ↔ ∃ f, f ∈ csv_files ∧ t ∈ column "timestamp" f).
Proof.
  intros Hrect (p & Hp & _ & _ & -> & _)%first_pass_Ok. simpl.
  destruct (pool_loop_columns csv_files p Hrect Hp) as (H1 & _ & H2 & _).
  unfold keys. rewrite !dom_group, H1, H2. split; [done|].
  intros t. rewrite elem_of_sorted, elem_of_elements, elem_of_list_to_set.
  rewrite elem_of_concat. split.
  - intros (ts & Ht & (f & -> & Hf)%list_elem_of_fmap). eauto.
  - intros (f & Hf & Ht). exists (column "timestamp" f). split; [done|].
    apply list_elem_of_fmap. eauto.
Qed.

Lemma X15_curves_share_timestamps_witness :
  ∃ fig,
    first_pass [CsvFile "a.csv" (Some (Numeric (scenario_table 0 0 0 0)))] = Ok fig
    ∧ (mem_line fig).1 = (swap_line fig).1.
Proof.
  eexists. split; [vm_compute; reflexivity|].
  apply (X15_curves_share_timestamps
           [CsvFile "a.csv" (Some (Numeric (scenario_table 0 0 0 0)))]).
  - intros f df ->%list_elem_of_singleton [= <-].
    apply scenario_table_rectangular.
  - vm_compute. reflexivity.
Defined.

(** ** Nothing lost in the grouping *)

Lemma sum_list_zero {A} (f : A → nat) (l : list A) :
  (∀ x, x ∈ l → f x = 0%nat) → sum_list (f <$> l) = 0%nat.
Proof.
  induction l as [|a l IH]; intros Hf; [done|].
  rewrite fmap_cons. simpl. rewrite (Hf a) by left.
  apply IH. intros x Hx. apply Hf. by right.
Qed.

Lemma sum_list_indicator (l : list Qc) (x : Qc) :
  NoDup l → x ∈ l →
  sum_list ((λ t, if decide (x = t) then 1%nat else 0%nat) <$> l) = 1%nat.
Proof.
  induction 1 as [|a l Ha Hnd IH]; [by intros ?%elem_of_nil|].
  rewrite fmap_cons. simpl. intros [->|Hin]%elem_of_cons.
  - rewrite decide_True by done. f_equal. apply sum_list_zero.
    intros t Ht. rewrite decide_False; [done|]. by intros ->.
  - rewrite decide_False, IH; [done..|]. by intros ->.
Qed.

Lemma sum_list_add {A} (f g : A → nat) (l : list A) :
  sum_list ((λ x, f x + g x)%nat <$> l)
  = (sum_list (f <$> l) + sum_list (g <$> l))%nat.
Proof.
  induction l as [|a l IH]; [done|]. rewrite !fmap_cons. simpl.
  rewrite IH. lia.
Qed.

Lemma group_sizes (l : list Qc) (pts : points) :
  NoDup l → (∀ t, t ∈ pts.*1 → t ∈ l) →
  sum_list ((λ t, length (samples_at t pts)) <$> l) = length pts.
Proof.
  intros Hnd. induction pts as [|p pts IH]; intros Hin.
  - by apply sum_list_zero.
  - rewrite (list_fmap_ext _
      (λ t, (if decide (p.1 = t) then 1 else 0)
            + length (samples_at t pts))%nat l).
    + rewrite sum_list_add, sum_list_indicator, IH; [done| |done|].
      * intros t Ht. apply Hin. by right.
      * apply Hin. by left.
    + intros _ t _. rewrite samples_at_cons, length_app.
      by destruct (decide (p.1 = t)).
Qed.

(** X16.  The grouping loses no sample and counts none twice: the lists
    that the dictionary holds for the timestamps of a mean curve, which are
    all its keys, have as many values in total as there are pooled
    samples. *)
Theorem X16_groups_partition_samples (pts : points)
    (line : list Qc * list Qc) :
  mean_series pts = Ok line →
  (∀ t, t ∈ line.1 ↔ t ∈ dom (group_by_timestamp pts))
  ∧ sum_list
      ((λ t, length (default [] (group_by_timestamp pts !! t))) <$> line.1)
    = length pts.
Proof.
  rewrite mean_series_eq. intros [= <-]. simpl. split.
  - intros t. unfold keys. by rewrite elem_of_sorted, elem_of_elements.
  - rewrite (list_fmap_ext _ (λ t, length (samples_at t pts))).
    + apply group_sizes; [apply NoDup_sorted_keys|].
      intros t Ht. by apply elem_of_sorted, elem_of_keys_group.
    + intros _ t _. by rewrite lookup_group.
Qed.

Lemma X16_groups_partition_samples_witness :
  ∃ line,
    mean_series [(num 0, num 1); (num 1, num 2); (num 0, num 3)] = Ok line
    ∧ sum_list
        ((λ t, length
                 (default []
                    (group_by_timestamp
                       [(num 0, num 1); (num 1, num 2); (num 0, num 3)]
                     !! t)))
           <$> line.1) = 3%nat.
Proof.
  eexists. split; [vm_compute; reflexivity|].
  apply (X16_groups_partition_samples
           [(num 0, num 1); (num 1, num 2); (num 0, num 3)]).
  vm_compute. reflexivity.
Defined.

(** X17.  When all the samples at a timestamp have the same value (the
    files agree there), the curve passes through that value. *)
Theorem X17_agreeing_samples (pts : points) (line : list Qc * list Qc)
    (t v : Qc) :
  mean_series pts = Ok line →
  t ∈ pts.*1 →
  (∀ y, (t, y) ∈ pts → y = v) →
  (t, v) ∈ zip line.1 line.2.
Proof.
  rewrite mean_series_eq. intros [= <-] Ht Hv. simpl.
  apply elem_of_zip_fmap. split; [by apply elem_of_sorted, elem_of_keys_group|].
  apply samples_at_nonempty in Ht.
  destruct (mean_within_range (samples_at t pts) v v
              (arithmetic_mean (samples_at t pts))) as [Hlo Hhi].
  - by apply mean_nonempty.
  - unfold samples_at. apply Forall_fmap, Forall_forall.
    intros [t' y] [Heq Hin]%list_elem_of_filter. simpl in *. subst t'.
    rewrite (Hv y Hin). split; apply Qcle_refl.
  - by apply Qcle_antisym.
Qed.

Lemma X17_agreeing_samples_witness :
  ∃ line,
    mean_series [(num 0, num 4); (num 1, num 2); (num 0, num 4)] = Ok line
    ∧ (num 0, num 4) ∈ zip line.1 line.2.
Proof.
  eexists. split; [vm_compute; reflexivity|].
  apply (X17_agreeing_samples
           [(num 0, num 4); (num 1, num 2); (num 0, num 4)]).
  - vm_compute. reflexivity.
  - simpl. left.
  - intros y Hin.
    apply elem_of_cons in Hin as [Hin|Hin]; [by injection Hin|].
    apply elem_of_cons in Hin as [Hin|Hin].
    { injection Hin as H _. discriminate. }
    apply elem_of_cons in Hin as [Hin|Hin]; [by injection Hin|].
    by apply elem_of_nil in Hin.
Defined.
